(** * SmartAssetTracker: a shallow embedding of [main.py] and its properties

    The script polls a market-data provider for a list of ticker symbols,
    computes the open-to-close percentage change of every fetched record and
    logs a summary.  The embedding keeps the shape of the Python code:

    - Python floats are IEEE binary64 values, modelled by the executable
      [spec_float] of the Standard Library at precision 53;
    - a [dict] is an insertion-ordered association list with the update of
      Python ([d[k] = v] replaces in place or appends);
    - the methods of [SmartAssetTracker] run in a state-and-exception monad
      over a [world] holding [self.symbols], the heap of dict objects, the
      records handed to [logging] and the position in the environment;
    - the provider ([yfinance]) and [time.sleep] are the environment: an
      oracle that answers the n-th request and the n-th sleep. *)

From Stdlib Require Import ZArith Ascii Floats.SpecFloat.
From stdpp Require Import base list strings pretty.

Open Scope string_scope.
Open Scope list_scope.
Open Scope Z_scope.

(** ** Python floats *)

Module Float.

Definition prec : Z := 53.
Definition emax : Z := 1024.

(** [float(z)] for an integer literal. *)
Definition of_Z (z : Z) : spec_float := binary_normalize prec emax z 0 false.

Definition sub (x y : spec_float) : spec_float := SFsub prec emax x y.
Definition div (x y : spec_float) : spec_float := SFdiv prec emax x y.
Definition mul (x y : spec_float) : spec_float := SFmul prec emax x y.

(** [x == 0.0]: both signed zeros, and nothing else (not NaN). *)
Definition is_zero (x : spec_float) : bool :=
  match x with
  | S754_zero _ => true
  | _ => false
  end.

(** The integer nearest to [m * 2^e * 100], ties to even: the digits that
    the format specification [.2f] prints. *)
Definition hundredths (m : positive) (e : Z) : Z :=
  if 0 <=? e then Z.pos m * 2 ^ e * 100
  else
    let num := Z.pos m * 100 in
    let den := 2 ^ (- e) in
    let q := num / den in
    match 2 * (num mod den) ?= den with
    | Lt => q
    | Gt => q + 1
    | Eq => if Z.even q then q else q + 1
    end.

Definition sign (s : bool) : string := if s then "-" else "".

Definition two_digits (n : Z) : string :=
  if n <? 10 then "0" +:+ pretty (Z.to_N n) else pretty (Z.to_N n).

(** [format(x, ".2f")]. *)
Definition format_2f (x : spec_float) : string :=
  match x with
  | S754_nan => "nan"
  | S754_infinity s => sign s +:+ "inf"
  | S754_zero s => sign s +:+ "0.00"
  | S754_finite s m e =>
      let q := hundredths m e in
      sign s +:+ pretty (Z.to_N (q / 100)) +:+ "." +:+ two_digits (q mod 100)
  end.

End Float.

(** ** Python values, exceptions and dicts *)

Inductive pyval :=
| PyNone
| PyFloat (x : spec_float)
| PyStr (s : string).

Definition type_name (v : pyval) : string :=
  match v with
  | PyNone => "NoneType"
  | PyFloat _ => "float"
  | PyStr _ => "str"
  end.

(** [bool(v)]: [None], [0.0], [-0.0] and [''] are false. *)
Definition truthy (v : pyval) : bool :=
  match v with
  | PyNone => false
  | PyFloat x => negb (Float.is_zero x)
  | PyStr s => negb (String.eqb s "")
  end.

(** Exceptions.  [Exception cls text] is an instance of a subclass [cls] of
    [Exception] whose [str] is [text]; [KeyboardInterrupt] and [SystemExit]
    derive from [BaseException] only, so [except Exception] lets them pass. *)
Inductive exn :=
| KeyboardInterrupt
| SystemExit (code : Z)
| Exception (cls : string) (text : string).

Definition is_Exception (e : exn) : bool :=
  match e with
  | Exception _ _ => true
  | _ => false
  end.

(** [str(e)], as the f-strings of the handlers print it. *)
Definition str (e : exn) : string :=
  match e with
  | KeyboardInterrupt => ""
  | SystemExit code => pretty code
  | Exception _ text => text
  end.

Inductive outcome (A : Type) :=
| Ok (a : A)
| Raise (e : exn).
Arguments Ok {A} a.
Arguments Raise {A} e.

Definition unsupported (op : string) (a b : pyval) : exn :=
  Exception "TypeError"
    ("unsupported operand type(s) for " +:+ op +:+ ": '" +:+ type_name a
       +:+ "' and '" +:+ type_name b +:+ "'").

(** [a - b] *)
Definition py_sub (a b : pyval) : outcome pyval :=
  match a, b with
  | PyFloat x, PyFloat y => Ok (PyFloat (Float.sub x y))
  | _, _ => Raise (unsupported "-" a b)
  end.

Definition division_by_zero : exn :=
  Exception "ZeroDivisionError" "float division by zero".

(** [a / b]: float division raises on a zero divisor instead of returning an
    infinity or a NaN. *)
Definition py_truediv (a b : pyval) : outcome pyval :=
  match a, b with
  | PyFloat x, PyFloat y =>
      if Float.is_zero y then Raise division_by_zero
      else Ok (PyFloat (Float.div x y))
  | _, _ => Raise (unsupported "/" a b)
  end.

Fixpoint str_repeat (s : string) (n : nat) : string :=
  match n with
  | O => ""
  | S n' => s +:+ str_repeat s n'
  end.

(** [a * n] for an int literal [n]: a float is multiplied by [float(n)], a
    string is repeated. *)
Definition py_mul_int (a : pyval) (n : Z) : outcome pyval :=
  match a with
  | PyFloat x => Ok (PyFloat (Float.mul x (Float.of_Z n)))
  | PyStr s => Ok (PyStr (str_repeat s (Z.to_nat n)))
  | PyNone =>
      Raise (Exception "TypeError"
               "unsupported operand type(s) for *: 'NoneType' and 'int'")
  end.

(** [f"{v:.2f}"] *)
Definition py_format_2f (v : pyval) : outcome string :=
  match v with
  | PyFloat x => Ok (Float.format_2f x)
  | PyStr _ =>
      Raise (Exception "ValueError" "Unknown format code 'f' for object of type 'str'")
  | PyNone =>
      Raise (Exception "TypeError"
               "unsupported format string passed to NoneType.__format__")
  end.

(** Insertion-ordered dictionaries with string keys. *)
Module Dict.

Definition t (V : Type) : Type := list (string * V).

Section Ops.
Context {V : Type}.

Definition empty : t V := [].

Fixpoint get (k : string) (d : t V) : option V :=
  match d with
  | [] => None
  | (k', v) :: d' => if String.eqb k k' then Some v else get k d'
  end.

(** [d[k] = v]: an existing key keeps its position, a new key goes last. *)
Fixpoint set (k : string) (v : V) (d : t V) : t V :=
  match d with
  | [] => [(k, v)]
  | (k', v') :: d' =>
      if String.eqb k k' then (k', v) :: d' else (k', v') :: set k v d'
  end.

Definition keys (d : t V) : list string := fst <$> d.

Definition items (d : t V) : list (string * V) := d.

(** [bool(d)] *)
Definition nonempty (d : t V) : bool :=
  match d with
  | [] => false
  | _ :: _ => true
  end.

(** What every Python dict satisfies: a key occurs once. *)
Definition wf (d : t V) : Prop := NoDup (keys d).

End Ops.

(** The dict built from key/value pairs in order, as [dict(zip(ks, vs))]. *)
Definition of_list {V : Type} (l : list (string * V)) : t V :=
  foldl (fun d kv => set (fst kv) (snd kv) d) empty l.

End Dict.

(** A daily record and a performance entry are dicts from field name to
    value; the fetched data and the performance summary are dicts from symbol
    to such a dict. *)
Abbreviation record := (Dict.t pyval).
Abbreviation mapping := (Dict.t (Dict.t pyval)).

(** [stats.get(field)] *)
Definition record_get (stats : record) (field : string) : pyval :=
  match Dict.get field stats with
  | Some v => v
  | None => PyNone
  end.

(** [performance[field]] *)
Definition record_item (performance : record) (field : string) : outcome pyval :=
  match Dict.get field performance with
  | Some v => Ok v
  | None => Raise (Exception "KeyError" ("'" +:+ field +:+ "'"))
  end.

(** ** The world: tracker, heap, log and environment *)

Inductive level := INFO | WARNING | ERROR.

(** A record handed to [logging].  The format of [basicConfig] also prints
    the wall-clock time, which is not part of the model. *)
Record log_record := LogRecord { levelname : level; message : string }.

(** A reference to a dict object: its position in the heap. *)
Abbreviation ref := nat.

Record world := World {
  symbols : list string;        (* self.symbols *)
  heap : list mapping;          (* the dict objects allocated so far *)
  log : list log_record;        (* the records emitted so far, oldest first *)
  requests : list string;       (* the provider requests made so far *)
  sleeps : list Z;              (* the durations passed to time.sleep so far *)
}.

Definition set_heap (h : list mapping) (w : world) : world :=
  World (symbols w) h (log w) (requests w) (sleeps w).
Definition add_log (r : log_record) (w : world) : world :=
  World (symbols w) (heap w) (log w ++ [r]) (requests w) (sleeps w).
Definition add_request (s : string) (w : world) : world :=
  World (symbols w) (heap w) (log w) (requests w ++ [s]) (sleeps w).
Definition add_sleep (d : Z) (w : world) : world :=
  World (symbols w) (heap w) (log w) (requests w) (sleeps w ++ [d]).

(** The table [ticker.history(period="1d")] returns. *)
Record DataFrame := { columns : list string; rows : list (list pyval) }.

(** [hist.empty]: some axis has length zero. *)
Definition df_empty (hist : DataFrame) : bool :=
  match columns hist, rows hist with
  | _ :: _, _ :: _ => false
  | _, _ => true
  end.

(** [hist.iloc[-1].to_dict()] on a table with at least one row. *)
Definition iloc_last_to_dict (hist : DataFrame) : record :=
  match last (rows hist) with
  | Some r => Dict.of_list (zip (columns hist) r)
  | None => Dict.empty
  end.

Inductive response :=
| Returns (hist : DataFrame)
| Fails (e : exn).

(** The environment answers the n-th provider request (for the symbol asked)
    and the n-th sleep ([None]: the sleep returns; [Some e]: [e] is raised
    in it, as a signal handler does). *)
Record environment := {
  history : nat -> string -> response;
  sleep : nat -> option exn;
}.

(** ** The monad of the methods: state and exceptions *)

Definition M (A : Type) : Type := world -> outcome A * world.

Definition ret {A : Type} (a : A) : M A := fun w => (Ok a, w).

Definition bind {A B : Type} (m : M A) (k : A -> M B) : M B :=
  fun w =>
    match m w with
    | (Ok a, w') => k a w'
    | (Raise e, w') => (Raise e, w')
    end.

Definition lift {A : Type} (o : outcome A) : M A := fun w => (o, w).

Declare Scope py_scope.
Delimit Scope py_scope with py.
Notation "x <- m ;; k" := (bind m (fun x => k))
  (at level 100, m at next level, right associativity) : py_scope.
Notation "m ;; k" := (bind m (fun _ => k))
  (at level 100, right associativity) : py_scope.
Open Scope py_scope.

(** [try: body except ...: handler]: the handler chosen for the exception
    runs in the world the body left; an exception no clause matches goes on. *)
Definition try_except {A : Type} (body : M A) (clauses : exn -> option (M A)) : M A :=
  fun w =>
    match body w with
    | (Ok a, w') => (Ok a, w')
    | (Raise e, w') =>
        match clauses e with
        | Some handler => handler w'
        | None => (Raise e, w')
        end
    end.

(** [except Exception as e: handler e] *)
Definition except_Exception {A : Type} (handler : exn -> M A) : exn -> option (M A) :=
  fun e => if is_Exception e then Some (handler e) else None.

(** [for x in l: body x] *)
Fixpoint for_each {A : Type} (l : list A) (body : A -> M unit) : M unit :=
  match l with
  | [] => ret tt
  | x :: l' => body x ;; for_each l' body
  end.

(** [logging.info], [logging.warning], [logging.error] *)
Definition logging (lvl : level) (msg : string) : M unit :=
  fun w => (Ok tt, add_log (LogRecord lvl msg) w).

(** [self.symbols] *)
Definition self_symbols : M (list string) := fun w => (Ok (symbols w), w).

(** [{}]: a new dict object. *)
Definition new_dict : M ref :=
  fun w => (Ok (length (heap w)), set_heap (heap w ++ [Dict.empty]) w).

Definition dangling : exn := Exception "SystemError" "no object at this reference".

(** Reading the dict a reference points to.  Python has no dangling
    reference; a world in which [r] is not allocated makes the access fail. *)
Definition load (r : ref) : M mapping :=
  fun w =>
    match heap w !! r with
    | Some d => (Ok d, w)
    | None => (Raise dangling, w)
    end.

(** [r[k] = v] *)
Definition setitem (r : ref) (k : string) (v : record) : M unit :=
  fun w =>
    match heap w !! r with
    | Some d => (Ok tt, set_heap (<[r := Dict.set k v d]> (heap w)) w)
    | None => (Raise dangling, w)
    end.

(** ** class SmartAssetTracker *)

(** [SmartAssetTracker(symbols)] in a process that has done nothing yet. *)
Definition init (symbols : list string) : world := World symbols [] [] [] [].

Section Tracker.

Variable env : environment.

(** [yf.Ticker(symbol).history(period="1d")]: one request to the provider. *)
Definition yf_history (symbol : string) : M DataFrame :=
  fun w =>
    let w' := add_request symbol w in
    match history env (length (requests w)) symbol with
    | Returns hist => (Ok hist, w')
    | Fails e => (Raise e, w')
    end.

(** [time.sleep(seconds)] *)
Definition time_sleep (seconds : Z) : M unit :=
  fun w =>
    let w' := add_sleep seconds w in
    match sleep env (length (sleeps w)) with
    | None => (Ok tt, w')
    | Some e => (Raise e, w')
    end.

Definition fetch_asset_data : M ref :=
  data <- new_dict ;;
  logging INFO "Fetching asset data..." ;;
  syms <- self_symbols ;;
  for_each syms (fun symbol =>
    try_except
      (hist <- yf_history symbol ;;
       if negb (df_empty hist) then
         setitem data symbol (iloc_last_to_dict hist)
       else
         logging WARNING ("No data fetched for " +:+ symbol +:+ "."))
      (except_Exception (fun e =>
         logging ERROR ("Error fetching data for " +:+ symbol +:+ ": " +:+ str e)))) ;;
  ret data.

Definition display_performance (performance_summary : ref) : M unit :=
  summary <- load performance_summary ;;
  if negb (Dict.nonempty summary) then
    logging INFO "No performance data to display."
  else
    logging INFO "Displaying performance summary:" ;;
    for_each (Dict.items summary) (fun '(symbol, performance) =>
      logging INFO ("Symbol: " +:+ symbol) ;;
      open_price <- lift (record_item performance "Open Price") ;;
      open_text <- lift (py_format_2f open_price) ;;
      logging INFO ("  Open Price: " +:+ open_text) ;;
      close_price <- lift (record_item performance "Close Price") ;;
      close_text <- lift (py_format_2f close_price) ;;
      logging INFO ("  Close Price: " +:+ close_text) ;;
      change <- lift (record_item performance "Change (%)") ;;
      change_text <- lift (py_format_2f change) ;;
      logging INFO ("  Change (%): " +:+ change_text) ;;
      logging INFO (str_repeat "-" 40)).

Definition calculate_performance (data : ref) : M unit :=
  fetched <- load data ;;
  if negb (Dict.nonempty fetched) then
    logging WARNING "No data to calculate performance."
  else
    performance_summary <- new_dict ;;
    logging INFO "Calculating asset performance..." ;;
    for_each (Dict.items fetched) (fun '(symbol, stats) =>
      try_except
        (let open_price := record_get stats "Open" in
         let close_price := record_get stats "Close" in
         if truthy open_price && truthy close_price then
           difference <- lift (py_sub close_price open_price) ;;
           ratio <- lift (py_truediv difference open_price) ;;
           change <- lift (py_mul_int ratio 100) ;;
           setitem performance_summary symbol
             [("Open Price", open_price); ("Close Price", close_price);
              ("Change (%)", change)]
         else
           logging WARNING
             ("Invalid data for " +:+ symbol +:+ ". Open or Close price is missing."))
        (except_Exception (fun e =>
           logging ERROR
             ("Error calculating performance for " +:+ symbol +:+ ": " +:+ str e)))) ;;
    display_performance performance_summary.

(** One iteration of the [while True] of [track_assets]. *)
Definition tick : M unit :=
  data <- fetch_asset_data ;;
  calculate_performance data ;;
  logging INFO "Waiting for the next update cycle..." ;;
  time_sleep 60.

(** [while True: body] has no [break]: it is left by an exception only.
    [None]: still running after [fuel] iterations. *)
Fixpoint while_true (fuel : nat) (body : M unit) (w : world) : option (exn * world) :=
  match fuel with
  | O => None
  | S fuel' =>
      match body w with
      | (Ok _, w') => while_true fuel' body w'
      | (Raise e, w') => Some (e, w')
      end
  end.

(** The two [except] clauses of [track_assets]. *)
Definition track_assets_clauses (e : exn) : option (M unit) :=
  match e with
  | KeyboardInterrupt => Some (logging INFO "Tracking stopped by user.")
  | Exception _ _ => Some (logging ERROR ("An unexpected error occurred: " +:+ str e))
  | SystemExit _ => None
  end.

Definition track_assets (fuel : nat) (w : world) : option (outcome unit * world) :=
  match logging INFO "Starting asset tracking..." w with
  | (Raise e, w0) => Some (Raise e, w0)
  | (Ok _, w0) =>
      match while_true fuel tick w0 with
      | None => None
      | Some (e, w1) =>
          match track_assets_clauses e with
          | Some handler => Some (handler w1)
          | None => Some (Raise e, w1)
          end
      end
  end.

(** The exit status of the interpreter: 0 when the script runs to its end,
    the code of a [SystemExit], 130 for an uncaught [KeyboardInterrupt], 1
    after the traceback of another uncaught exception. *)
Definition exit_status (o : outcome unit) : Z :=
  match o with
  | Ok _ => 0
  | Raise (SystemExit code) => Z.land code 255
  | Raise KeyboardInterrupt => 130
  | Raise (Exception _ _) => 1
  end.

(** The [__main__] block. *)
Definition main (fuel : nat) : option (Z * world) :=
  let symbols := ["AAPL"; "TSLA"; "GOOGL"] in
  let tracker := init symbols in
  match track_assets fuel tracker with
  | None => None
  | Some (o, w) => Some (exit_status o, w)
  end.

End Tracker.

(** ** Specification-level descriptions

    The definitions below are not part of the program: they say, as plain
    functions of the inputs, what the loops of the program are proved to
    compute. *)

Definition add_logs (l : list log_record) (w : world) : world :=
  World (symbols w) (heap w) (log w ++ l) (requests w) (sleeps w).

(** A computation that only writes log records: its outcome and the records
    it emits do not depend on the world, and it changes nothing else. *)
Definition writer {A : Type} (m : M A) : Prop :=
  forall w, m w = (fst (m (init [])), add_logs (log (snd (m (init [])))) w).

(** The [PerformanceResult] of the specification for a record with opening
    price [o] and closing price [c]: [changePercent = (c - o) / o * 100], each
    operation rounded as binary64 arithmetic does. *)
Definition PerformanceResult (o c : spec_float) : record :=
  [("Open Price", PyFloat o); ("Close Price", PyFloat c);
   ("Change (%)",
    PyFloat (Float.mul (Float.div (Float.sub c o) o) (Float.of_Z 100)))].

(** What happens to one fetched record. *)
Inductive verdict :=
| Computed (performance : record)
| Skipped
| Failed (e : exn).

Definition analyse (stats : record) : verdict :=
  let open_price := record_get stats "Open" in
  let close_price := record_get stats "Close" in
  if truthy open_price && truthy close_price then
    match open_price, close_price with
    | PyFloat o, PyFloat c => Computed (PerformanceResult o c)
    | _, _ => Failed (unsupported "-" close_price open_price)
    end
  else Skipped.

Definition summary_step (summary : mapping) (item : string * record) : mapping :=
  match analyse (snd item) with
  | Computed performance => Dict.set (fst item) performance summary
  | _ => summary
  end.

Definition summary_of (fetched : mapping) : mapping :=
  foldl summary_step Dict.empty fetched.

Definition invalid_data (symbol : string) : log_record :=
  LogRecord WARNING
    ("Invalid data for " +:+ symbol +:+ ". Open or Close price is missing.").

Definition calculation_error (symbol : string) (e : exn) : log_record :=
  LogRecord ERROR ("Error calculating performance for " +:+ symbol +:+ ": " +:+ str e).

Definition analysis_record (item : string * record) : list log_record :=
  match analyse (snd item) with
  | Computed _ => []
  | Skipped => [invalid_data (fst item)]
  | Failed e => [calculation_error (fst item) e]
  end.

Definition analysis_log (fetched : mapping) : list log_record :=
  concat (analysis_record <$> fetched).

(** The outcome and the log records of the Reporter on a given summary. *)
Definition display_output (summary : mapping) : outcome unit * list log_record :=
  let r := display_performance 0%nat (World [] [summary] [] [] []) in
  (fst r, log (snd r)).

(** The summary object that [calculate_performance] allocates, if any: the
    mapping it hands to [display_performance]. *)
Definition performance_summary_of (data : ref) (w : world) : option mapping :=
  heap (snd (calculate_performance data w)) !! length (heap w).

(** An answer of the provider that the handler of [fetch_asset_data] deals
    with: a table, or an instance of [Exception]. *)
Definition ordinary (r : response) : bool :=
  match r with
  | Returns _ => true
  | Fails e => is_Exception e
  end.

(** An answer that brings no data: an exception or an empty table. *)
Definition no_data (r : response) : bool :=
  match r with
  | Returns hist => df_empty hist
  | Fails _ => true
  end.

Definition no_data_fetched (symbol : string) : log_record :=
  LogRecord WARNING ("No data fetched for " +:+ symbol +:+ ".").

Definition fetch_error (symbol : string) (e : exn) : log_record :=
  LogRecord ERROR ("Error fetching data for " +:+ symbol +:+ ": " +:+ str e).

Definition fetch_step (r : response) (symbol : string) (data : mapping) : mapping :=
  match r with
  | Returns hist =>
      if df_empty hist then data else Dict.set symbol (iloc_last_to_dict hist) data
  | Fails _ => data
  end.

Definition fetch_record (r : response) (symbol : string) : list log_record :=
  match r with
  | Returns hist => if df_empty hist then [no_data_fetched symbol] else []
  | Fails e => [fetch_error symbol e]
  end.

(** The mapping and the log of a batch whose first request is the [n]-th. *)
Fixpoint fetched_of (env : environment) (n : nat) (syms : list string)
    (data : mapping) : mapping :=
  match syms with
  | [] => data
  | symbol :: syms' =>
      fetched_of env (S n) syms' (fetch_step (history env n symbol) symbol data)
  end.

Fixpoint fetch_log (env : environment) (n : nat) (syms : list string) : list log_record :=
  match syms with
  | [] => []
  | symbol :: syms' =>
      fetch_record (history env n symbol) symbol ++ fetch_log env (S n) syms'
  end.

(** The shape of every entry that [calculate_performance] stores. *)
Definition is_performance (performance : record) : Prop :=
  ∃ o c change,
    performance =
      [("Open Price", PyFloat o); ("Close Price", PyFloat c);
       ("Change (%)", PyFloat change)].

(** The result that [calculate_performance] produces for a symbol, if any. *)
Definition result_for (data : ref) (w : world) (symbol : string) : option record :=
  match performance_summary_of data w with
  | Some summary => Dict.get symbol summary
  | None => None
  end.

(** The records a computation adds to the log. *)
Definition emitted {A : Type} (m : M A) (w : world) : list log_record :=
  drop (length (log w)) (log (snd (m w))).

(** The exit status of a process whose main block calls [track_assets] on
    the tracker [w]; [None] while the loop is still running. *)
Definition process_exit (env : environment) (fuel : nat) (w : world) : option Z :=
  match track_assets env fuel w with
  | Some (o, _) => Some (exit_status o)
  | None => None
  end.

Fixpoint last_char (s : string) : option ascii :=
  match s with
  | EmptyString => None
  | String a EmptyString => Some a
  | String _ s' => last_char s'
  end.

(** A computation that keeps a property of the world, however it ends. *)
Definition preserves (I : world → Prop) {A : Type} (m : M A) : Prop :=
  ∀ w, I w → I (snd (m w)).

(** ** Concrete inputs: the scenarios of the specification *)

Definition pyfloat (z : Z) : pyval := PyFloat (Float.of_Z z).

(** A tracker whose heap holds one fetched mapping, at reference 0. *)
Definition fetched_world (symbols : list string) (fetched : mapping) : world :=
  World symbols [fetched] [] [] [].

(** Scenario 1: [{"AAPL": {open: 150.0, close: 153.0}}] *)
Definition scenario_1 : world :=
  fetched_world ["AAPL"] [("AAPL", [("Open", pyfloat 150); ("Close", pyfloat 153)])].

(** Scenario 2: [{"TSLA": {open: 0.0, close: 200.0}}] *)
Definition scenario_2 : world :=
  fetched_world ["TSLA"] [("TSLA", [("Open", pyfloat 0); ("Close", pyfloat 200)])].

(** Scenario 3: the empty fetch [{}] *)
Definition scenario_3 : world := fetched_world ["AAPL"] [].

(** A record that opens at 200.0 and closes at 0.0. *)
Definition zero_close : world :=
  fetched_world ["TSLA"] [("TSLA", [("Open", pyfloat 200); ("Close", pyfloat 0)])].

(** A one-row table with the columns of the provider. *)
Definition daily (open_price close_price : Z) : DataFrame :=
  {| columns := ["Open"; "High"; "Low"; "Close"; "Volume"];
     rows := [[pyfloat open_price; pyfloat close_price; pyfloat open_price;
               pyfloat close_price; pyfloat 1000]] |}.

Definition no_rows : DataFrame :=
  {| columns := ["Open"; "High"; "Low"; "Close"; "Volume"]; rows := [] |}.

(** Scenario 4: the provider raises for GOOGL, has data for AAPL and an
    empty table for any other symbol; the second sleep is interrupted. *)
Definition scenario_4 : environment :=
  {| history := λ _ symbol,
       if String.eqb symbol "GOOGL" then Fails (Exception "ConnectionError" "timed out")
       else if String.eqb symbol "AAPL" then Returns (daily 150 153)
       else Returns no_rows;
     sleep := λ n, match n with O => None | S _ => Some KeyboardInterrupt end |}.

(** The same provider, with sleeps in which a signal handler raises a
    [RuntimeError]. *)
Definition failing_sleep : environment :=
  {| history := history scenario_4;
     sleep := λ _, Some (Exception "RuntimeError" "handler failed") |}.

(** ** Descriptions for the further properties *)

(** The body of the loop of [fetch_asset_data], for the mapping at [data]. *)
Definition fetch_one (env : environment) (data : ref) (symbol : string) : M unit :=
  try_except
    (hist <- yf_history env symbol ;;
     if negb (df_empty hist) then
       setitem data symbol (iloc_last_to_dict hist)
     else
       logging WARNING ("No data fetched for " +:+ symbol +:+ "."))
    (except_Exception (fun e =>
       logging ERROR ("Error fetching data for " +:+ symbol +:+ ": " +:+ str e))).

(** The body of the loop of [display_performance]. *)
Definition display_one (item : string * record) : M unit :=
  let '(symbol, performance) := item in
  logging INFO ("Symbol: " +:+ symbol) ;;
  open_price <- lift (record_item performance "Open Price") ;;
  open_text <- lift (py_format_2f open_price) ;;
  logging INFO ("  Open Price: " +:+ open_text) ;;
  close_price <- lift (record_item performance "Close Price") ;;
  close_text <- lift (py_format_2f close_price) ;;
  logging INFO ("  Close Price: " +:+ close_text) ;;
  change <- lift (record_item performance "Change (%)") ;;
  change_text <- lift (py_format_2f change) ;;
  logging INFO ("  Change (%): " +:+ change_text) ;;
  logging INFO (str_repeat "-" 40).

(** An entry of a performance summary with its three numbers. *)
Record displayed := Displayed {
  d_symbol : string;
  d_open : spec_float;
  d_close : spec_float;
  d_change : spec_float;
}.

Definition entry_of (e : displayed) : string * record :=
  (d_symbol e,
   [("Open Price", PyFloat (d_open e)); ("Close Price", PyFloat (d_close e));
    ("Change (%)", PyFloat (d_change e))]).

(** The five records of the Reporter for one entry. *)
Definition block_of (e : displayed) : list log_record :=
  [LogRecord INFO ("Symbol: " +:+ d_symbol e);
   LogRecord INFO ("  Open Price: " +:+ Float.format_2f (d_open e));
   LogRecord INFO ("  Close Price: " +:+ Float.format_2f (d_close e));
   LogRecord INFO ("  Change (%): " +:+ Float.format_2f (d_change e));
   LogRecord INFO (str_repeat "-" 40)].

Definition displaying : log_record := LogRecord INFO "Displaying performance summary:".

(** A record that passes the guard of the Analyzer with two floats. *)
Definition has_prices (stats : record) : bool :=
  match record_get stats "Open", record_get stats "Close" with
  | PyFloat o, PyFloat c => negb (Float.is_zero o) && negb (Float.is_zero c)
  | _, _ => false
  end.

(** A provider that has data for every symbol, and sleeps that all return. *)
Definition always_data : environment :=
  {| history := λ _ _, Returns (daily 150 153); sleep := λ _, None |}.

(** The provider of scenario 4 with a [SystemExit] raised in the first sleep. *)
Definition exiting_sleep : environment :=
  {| history := history scenario_4; sleep := λ _, Some (SystemExit 3) |}.

(** A provider interrupted while it answers for TSLA. *)
Definition interrupted_request : environment :=
  {| history := λ _ symbol,
       if String.eqb symbol "TSLA" then Fails KeyboardInterrupt
       else Returns (daily 150 153);
     sleep := λ _, None |}.

Definition aapl_entry : displayed :=
  Displayed "AAPL" (Float.of_Z 150) (Float.of_Z 153) (Float.of_Z 2).

Definition googl_entry : displayed :=
  Displayed "GOOGL" (Float.of_Z 1) (Float.of_Z 2) (Float.of_Z 100).

(** A heap whose object 0 is the summary of scenario 1. *)
Definition summary_1 : world := fetched_world ["AAPL"] [entry_of aapl_entry].

(** A heap whose object 0 is a summary with an entry for TSLA that has no
    'Open Price'. *)
Definition broken_summary : world :=
  fetched_world []
    [entry_of aapl_entry; ("TSLA", [("Close Price", pyfloat 200)]); entry_of googl_entry].

(** The numbers of a summary entry, read back from its dict. *)
Definition float_of (v : pyval) : spec_float :=
  match v with
  | PyFloat x => x
  | _ => S754_nan
  end.

Definition to_displayed (item : string * record) : displayed :=
  Displayed (fst item)
    (float_of (record_get (snd item) "Open Price"))
    (float_of (record_get (snd item) "Close Price"))
    (float_of (record_get (snd item) "Change (%)")).

(** The change in percent as the Analyzer computes it. *)
Definition change_percent (o c : spec_float) : spec_float :=
  Float.mul (Float.div (Float.sub c o) o) (Float.of_Z 100).

(** Scenario 2 with a second record whose prices are strings. *)
Definition text_prices : world :=
  fetched_world ["TSLA"; "AAPL"]
    [("TSLA", [("Open", PyStr "n/a"); ("Close", PyStr "n/a")]);
     ("AAPL", [("Open", pyfloat 150); ("Close", pyfloat 153)])].

(** A record whose opening price is a NaN, as the provider reports a missing
    value. *)
Definition nan_open : world :=
  fetched_world ["AAPL"] [("AAPL", [("Open", PyFloat S754_nan); ("Close", pyfloat 153)])].

Definition waiting : log_record :=
  LogRecord INFO "Waiting for the next update cycle...".

(** Where an exception that leaves a tick can come from: a request that the
    provider answered with an exception other than an [Exception], or a
    sleep. *)
Definition raised_by (env : environment) (e : exn) : Prop :=
  (∃ n s, history env n s = Fails e ∧ is_Exception e = false)
  ∨ (∃ n, sleep env n = Some e).

(** * Properties *)

Arguments Float.sub : simpl never.
Arguments Float.div : simpl never.
Arguments Float.mul : simpl never.
Arguments Float.of_Z : simpl never.
Arguments Float.format_2f : simpl never.
Arguments String.append : simpl never.

(** ** Dictionaries *)

Section DictFacts.
Context {V : Type}.
Implicit Types (d : Dict.t V) (k : string) (v : V).

Lemma dict_get_set_eq k v d : Dict.get k (Dict.set k v d) = Some v.
Proof.
  induction d as [|[k' v'] d IH]; simpl.
  - by rewrite String.eqb_refl.
  - destruct (String.eqb_spec k k') as [->|Hne]; simpl.
    + by rewrite String.eqb_refl.
    + by destruct (String.eqb_spec k k').
Qed.

Lemma dict_get_set_ne k k' v d :
  k ≠ k' → Dict.get k' (Dict.set k v d) = Dict.get k' d.
Proof.
  intros Hne. induction d as [|[k0 v0] d IH]; simpl.
  - by destruct (String.eqb_spec k' k).
  - destruct (String.eqb_spec k k0) as [->|Hk]; simpl.
    + by destruct (String.eqb_spec k' k0).
    + by rewrite IH.
Qed.

Lemma dict_get_None k d : Dict.get k d = None ↔ k ∉ Dict.keys d.
Proof.
  unfold Dict.keys. induction d as [|[k' v'] d IH]; simpl.
  - split; [intros _; apply not_elem_of_nil | done].
  - rewrite not_elem_of_cons. simpl.
    destruct (String.eqb_spec k k') as [->|Hne].
    + split; [done | by intros [? _]].
    + rewrite IH. split; [by split | by intros [_ ?]].
Qed.

Lemma dict_get_is_Some k d : is_Some (Dict.get k d) ↔ k ∈ Dict.keys d.
Proof.
  rewrite <- not_eq_None_Some, dict_get_None.
  destruct (decide (k ∈ Dict.keys d)) as [Hin|Hnotin].
  - split; [done | by intros _ Hn].
  - split; [by intros Hn | done].
Qed.

Lemma dict_get_elem_of k v d : Dict.get k d = Some v → (k, v) ∈ d.
Proof.
  induction d as [|[k' v'] d IH]; simpl; [done|].
  destruct (String.eqb_spec k k') as [->|Hne].
  - intros [= ->]. apply elem_of_cons; by left.
  - intros H. apply elem_of_cons; right; auto.
Qed.

Lemma dict_elem_of_get k v d : Dict.wf d → (k, v) ∈ d → Dict.get k d = Some v.
Proof.
  unfold Dict.wf, Dict.keys. induction d as [|[k' v'] d IH]; simpl.
  - intros _ H. by apply elem_of_nil in H.
  - rewrite NoDup_cons. intros [Hnotin Hnd] [[= -> ->]|Hin]%elem_of_cons.
    + by rewrite String.eqb_refl.
    + destruct (String.eqb_spec k k') as [->|Hne]; [|by apply IH].
      exfalso. apply Hnotin. apply list_elem_of_fmap. by exists (k', v).
Qed.

Lemma dict_keys_set k v d :
  Dict.keys (Dict.set k v d) =
    if decide (k ∈ Dict.keys d) then Dict.keys d else Dict.keys d ++ [k].
Proof.
  unfold Dict.keys. induction d as [|[k' v'] d IH].
  - simpl Dict.set. destruct (decide (k ∈ fst <$> [])) as [Hin|_]; [|done].
    by apply elem_of_nil in Hin.
  - simpl Dict.set. rewrite fmap_cons. simpl fst.
    destruct (String.eqb_spec k k') as [->|Hne]; rewrite fmap_cons; simpl fst.
    + destruct (decide (k' ∈ k' :: (fst <$> d))) as [_|Hnotin]; [done|].
      exfalso. apply Hnotin, elem_of_cons. by left.
    + rewrite IH.
      destruct (decide (k ∈ fst <$> d)) as [Hin|Hnotin];
        destruct (decide (k ∈ k' :: (fst <$> d))) as [Hin'|Hnotin']; try done.
      * exfalso. apply Hnotin', elem_of_cons. by right.
      * apply elem_of_cons in Hin' as [?|?]; done.
Qed.

Lemma dict_elem_of_keys_set k k' v d :
  k' ∈ Dict.keys (Dict.set k v d) ↔ k' = k ∨ k' ∈ Dict.keys d.
Proof.
  rewrite dict_keys_set. case_decide as Hin.
  - split; [by right | by intros [->|?]].
  - rewrite elem_of_app, list_elem_of_singleton. split; intros [?|?]; auto.
Qed.

Lemma dict_wf_set k v d : Dict.wf d → Dict.wf (Dict.set k v d).
Proof.
  unfold Dict.wf. rewrite dict_keys_set. case_decide; [done|].
  intros Hnd. apply NoDup_app. split_and!; [done | | apply NoDup_singleton].
  intros x Hx ->%list_elem_of_singleton. done.
Qed.

Lemma dict_wf_empty : Dict.wf (@Dict.empty V).
Proof. apply NoDup_nil_2. Qed.

Lemma dict_Forall_set (P : string * V → Prop) k v d :
  (∀ k', P (k', v)) → Forall P d → Forall P (Dict.set k v d).
Proof.
  intros Hv. induction 1 as [|[k' v'] d Hx Hd IH]; simpl.
  - by constructor.
  - destruct (String.eqb_spec k k'); constructor; auto.
Qed.

End DictFacts.

(** ** Worlds and log writers *)

Lemma add_logs_nil w : add_logs [] w = w.
Proof. destruct w. unfold add_logs. simpl. by rewrite app_nil_r. Qed.

Lemma add_logs_add_logs l1 l2 w : add_logs l2 (add_logs l1 w) = add_logs (l1 ++ l2) w.
Proof. unfold add_logs. simpl. by rewrite app_assoc. Qed.

Lemma set_heap_add_logs h l w : set_heap h (add_logs l w) = add_logs l (set_heap h w).
Proof. reflexivity. Qed.

Lemma writer_ret {A} (a : A) : writer (ret a).
Proof. intros w. unfold ret. simpl. by rewrite add_logs_nil. Qed.

Lemma writer_lift {A} (o : outcome A) : writer (lift o).
Proof. intros w. unfold lift. simpl. by rewrite add_logs_nil. Qed.

Lemma writer_logging lvl msg : writer (logging lvl msg).
Proof. intros w. reflexivity. Qed.

Lemma writer_bind {A B} (m : M A) (k : A → M B) :
  writer m → (∀ a, writer (k a)) → writer (bind m k).
Proof.
  intros Hm Hk w. unfold bind. rewrite (Hm w).
  destruct (m (init [])) as [[a|e] w0] eqn:Hm0; simpl; [|done].
  rewrite (Hk a).
  rewrite add_logs_add_logs. by rewrite (Hk a w0).
Qed.

Lemma writer_for_each {A} (l : list A) (body : A → M unit) :
  (∀ x, x ∈ l → writer (body x)) → writer (for_each l body).
Proof.
  induction l as [|x l IH]; intros Hbody; simpl.
  - apply writer_ret.
  - apply writer_bind.
    + apply Hbody, elem_of_cons. by left.
    + intros _. apply IH. intros y Hy. apply Hbody, elem_of_cons. by right.
Qed.

Lemma writer_if {A} (b : bool) (m1 m2 : M A) :
  writer m1 → writer m2 → writer (if b then m1 else m2).
Proof. by destruct b. Qed.

(** A writer changes nothing but the log, which it extends. *)
Lemma writer_frame {A} (m : M A) w :
  writer m → ∃ l, snd (m w) = add_logs l w.
Proof. intros Hm. rewrite (Hm w). by eexists. Qed.

(** Sequences of log calls and pure steps are writers. *)
Ltac writer_steps :=
  repeat first [ apply writer_logging | apply writer_lift | apply writer_ret
               | apply writer_bind; [|intros ?] ].

(** The body of the loop of [display_performance] is a writer. *)
Lemma writer_display_entry (item : string * record) :
  writer (let '(symbol, performance) := item in
          logging INFO ("Symbol: " +:+ symbol) ;;
          open_price <- lift (record_item performance "Open Price") ;;
          open_text <- lift (py_format_2f open_price) ;;
          logging INFO ("  Open Price: " +:+ open_text) ;;
          close_price <- lift (record_item performance "Close Price") ;;
          close_text <- lift (py_format_2f close_price) ;;
          logging INFO ("  Close Price: " +:+ close_text) ;;
          change <- lift (record_item performance "Change (%)") ;;
          change_text <- lift (py_format_2f change) ;;
          logging INFO ("  Change (%): " +:+ change_text) ;;
          logging INFO (str_repeat "-" 40)).
Proof. destruct item as [symbol performance]. writer_steps. Qed.

Lemma bind_load {A} r (k : mapping → M A) w d :
  heap w !! r = Some d → bind (load r) k w = k d w.
Proof. intros Hr. unfold bind, load. by rewrite Hr. Qed.

(** The Reporter's behaviour depends on the summary only, and it changes
    nothing but the log. *)
Lemma display_performance_spec r w summary :
  heap w !! r = Some summary →
  display_performance r w =
    (fst (display_output summary), add_logs (snd (display_output summary)) w).
Proof.
  intros Hr. unfold display_output, display_performance.
  rewrite (bind_load r _ w summary Hr).
  rewrite (bind_load 0%nat _ (World [] [summary] [] [] []) summary eq_refl).
  set (m := if negb (Dict.nonempty summary) then _ else _).
  assert (Hm : writer m).
  { subst m. apply writer_if; [apply writer_logging|].
    apply writer_bind; [apply writer_logging|]. intros _.
    apply writer_for_each. intros item _. apply writer_display_entry. }
  rewrite (Hm w). by rewrite (Hm (World _ _ _ _ _)).
Qed.

(** ** The Analyzer *)

Lemma bind_ok {A B} (m : M A) (k : A → M B) w a w' :
  m w = (Ok a, w') → bind m k w = k a w'.
Proof. intros Hm. unfold bind. by rewrite Hm. Qed.

Lemma bind_logging {A} lvl msg (k : unit → M A) w :
  bind (logging lvl msg) k w = k tt (add_logs [LogRecord lvl msg] w).
Proof. reflexivity. Qed.

Lemma bind_new_dict {A} (k : ref → M A) w :
  bind new_dict k w = k (length (heap w)) (set_heap (heap w ++ [Dict.empty]) w).
Proof. reflexivity. Qed.

Lemma bind_self_symbols {A} (k : list string → M A) w :
  bind self_symbols k w = k (symbols w) w.
Proof. reflexivity. Qed.

Lemma for_each_ok {A} (l : list A) (body : A → M unit) :
  (∀ x w, x ∈ l → fst (body x w) = Ok tt) → ∀ w, fst (for_each l body w) = Ok tt.
Proof.
  induction l as [|x l IH]; intros Hbody w; simpl; [done|].
  unfold bind. pose proof (Hbody x w) as Hx.
  destruct (body x w) as [[[]|e] w']; simpl in Hx.
  - apply IH. intros y w'' Hy. apply Hbody, elem_of_cons. by right.
  - discriminate Hx. apply elem_of_cons. by left.
Qed.

Lemma display_output_ok summary :
  Forall (λ item, is_performance (snd item)) summary →
  fst (display_output summary) = Ok tt.
Proof.
  intros Hall.
  change (fst (display_performance 0%nat (World [] [summary] [] [] [])) = Ok tt).
  unfold display_performance.
  rewrite (bind_load 0%nat _ (World [] [summary] [] [] []) summary eq_refl).
  destruct summary as [|item summary]; [done|].
  change (negb (Dict.nonempty (item :: summary))) with false. cbv iota.
  rewrite bind_logging. apply for_each_ok.
  intros [symbol performance] w Hin.
  rewrite Forall_forall in Hall. specialize (Hall _ Hin). simpl in Hall.
  destruct Hall as (o & c & change & ->). reflexivity.
Qed.

Lemma summary_step_is_performance fetched : ∀ summary,
  Forall (λ item, is_performance (snd item)) summary →
  Forall (λ item, is_performance (snd item)) (foldl summary_step summary fetched).
Proof.
  induction fetched as [|[symbol stats] fetched IH]; intros summary Hs; simpl; [done|].
  apply IH. unfold summary_step, analyse. simpl.
  destruct (truthy (record_get stats "Open") && truthy (record_get stats "Close")); [|done].
  destruct (record_get stats "Open"), (record_get stats "Close"); try done.
  apply dict_Forall_set; [|done]. intros k'. simpl. by eexists _, _, _.
Qed.

Lemma summary_of_is_performance fetched :
  Forall (λ item, is_performance (snd item)) (summary_of fetched).
Proof. apply summary_step_is_performance. constructor. Qed.

Lemma set_heap_id w : set_heap (heap w) w = w.
Proof. by destruct w. Qed.

(** The whole behaviour of [calculate_performance] on an allocated mapping:
    it never raises, allocates one object (the summary) unless the mapping is
    empty, and extends the log. *)
Lemma calculate_performance_spec data w fetched :
  heap w !! data = Some fetched →
  calculate_performance data w =
    if Dict.nonempty fetched then
      (Ok tt,
       World (symbols w) (heap w ++ [summary_of fetched])
         (log w ++ [LogRecord INFO "Calculating asset performance..."]
            ++ analysis_log fetched ++ snd (display_output (summary_of fetched)))
         (requests w) (sleeps w))
    else (Ok tt, add_logs [LogRecord WARNING "No data to calculate performance."] w).
Proof.
  intros Hdata. unfold calculate_performance. rewrite (bind_load _ _ _ _ Hdata).
  destruct (Dict.nonempty fetched); [|done].
  change (negb true) with false. cbv iota.
  rewrite bind_new_dict, bind_logging.
  set (r := length (heap w)).
  match goal with |- context [for_each _ ?b] => set (body := b) end.
  assert (Hloop : ∀ items w' summary,
    heap w' !! r = Some summary →
    for_each items body w' =
      (Ok tt, set_heap (<[r := foldl summary_step summary items]> (heap w'))
                (add_logs (concat (analysis_record <$> items)) w'))).
  { clear. induction items as [|[symbol stats] items IH]; intros w' summary Hr; simpl.
    - rewrite add_logs_nil, (list_insert_id _ _ _ Hr). unfold ret. by rewrite set_heap_id.
    - assert (Hstep : body (symbol, stats) w' =
        (Ok tt, set_heap (<[r := summary_step summary (symbol, stats)]> (heap w'))
                  (add_logs (analysis_record (symbol, stats)) w'))).
      { subst body. unfold summary_step, analysis_record, analyse. cbv beta iota zeta.
        simpl fst. simpl snd. unfold try_except.
        destruct (truthy (record_get stats "Open") && truthy (record_get stats "Close"))
          eqn:Hguard.
        - destruct (record_get stats "Open") as [|o|so] eqn:Ho;
            destruct (record_get stats "Close") as [|c|sc] eqn:Hc;
            simpl in Hguard; rewrite ?andb_false_r in Hguard; try discriminate Hguard;
            try (rewrite (list_insert_id _ _ _ Hr); reflexivity).
          apply andb_true_iff in Hguard as [Hoz _]. apply negb_true_iff in Hoz.
          unfold bind, lift, py_sub, py_truediv, py_mul_int. rewrite Hoz.
          unfold setitem. rewrite Hr. by rewrite add_logs_nil.
        - rewrite (list_insert_id _ _ _ Hr). reflexivity. }
      rewrite (bind_ok _ _ _ _ _ Hstep).
      rewrite (IH _ (summary_step summary (symbol, stats))).
      + simpl heap. rewrite list_insert_insert_eq.
        unfold set_heap, add_logs. cbn [symbols heap log requests sleeps].
        by rewrite app_assoc.
      + simpl heap. apply list_lookup_insert_eq. by eapply lookup_lt_Some. }
  assert (Hnew : heap (add_logs [LogRecord INFO "Calculating asset performance..."]
                         (set_heap (heap w ++ [Dict.empty]) w)) !! r = Some Dict.empty).
  { simpl heap. subst r. by apply list_lookup_middle. }
  rewrite (bind_ok _ _ _ _ _ (Hloop _ _ _ Hnew)).
  assert (Hins : <[r:=foldl summary_step Dict.empty (Dict.items fetched)]>
                   (heap w ++ [Dict.empty]) = heap w ++ [summary_of fetched]).
  { subst r. rewrite insert_app_r_alt by done. by rewrite Nat.sub_diag. }
  rewrite (display_performance_spec _ _ (summary_of fetched)).
  - rewrite display_output_ok by apply summary_of_is_performance.
    f_equal. unfold add_logs, set_heap. cbn [symbols heap log requests sleeps fst].
    rewrite Hins. unfold analysis_log. by rewrite <- !app_assoc.
  - simpl heap. rewrite Hins. subst r. by apply list_lookup_middle.
Qed.

(** *** What the summary contains *)

Lemma record_get_float stats field x :
  record_get stats field = PyFloat x ↔ Dict.get field stats = Some (PyFloat x).
Proof.
  unfold record_get. destruct (Dict.get field stats) as [v|].
  - split; [by intros -> | by intros [= ->]].
  - split; discriminate.
Qed.

Lemma analyse_Computed stats performance :
  analyse stats = Computed performance ↔
  ∃ o c, Dict.get "Open" stats = Some (PyFloat o)
       ∧ Dict.get "Close" stats = Some (PyFloat c)
       ∧ Float.is_zero o = false ∧ Float.is_zero c = false
       ∧ performance = PerformanceResult o c.
Proof.
  unfold analyse. cbv zeta. split.
  - destruct (record_get stats "Open") as [|o|so] eqn:Ho;
      destruct (record_get stats "Close") as [|c|sc] eqn:Hc;
      simpl; rewrite ?andb_false_r; try discriminate;
      try (by destruct (negb _)); try (by destruct (negb _ && negb _)).
    destruct (Float.is_zero o) eqn:Hoz; [discriminate|].
    destruct (Float.is_zero c) eqn:Hcz; [discriminate|].
    intros [= <-]. exists o, c. by rewrite <- !record_get_float.
  - intros (o & c & Ho & Hc & Hoz & Hcz & ->).
    apply record_get_float in Ho, Hc. rewrite Ho, Hc. simpl. by rewrite Hoz, Hcz.
Qed.

Lemma analyse_Skipped stats :
  analyse stats = Skipped ↔
  truthy (record_get stats "Open") = false ∨ truthy (record_get stats "Close") = false.
Proof.
  unfold analyse. cbv zeta. rewrite <- andb_false_iff.
  destruct (truthy (record_get stats "Open") && truthy (record_get stats "Close")).
  - split; [|done]. by destruct (record_get stats "Open"), (record_get stats "Close").
  - done.
Qed.

Lemma analyse_Failed stats e :
  analyse stats = Failed e →
  e = unsupported "-" (record_get stats "Close") (record_get stats "Open").
Proof.
  unfold analyse. cbv zeta.
  destruct (truthy (record_get stats "Open") && truthy (record_get stats "Close"));
    [|done].
  destruct (record_get stats "Open"), (record_get stats "Close"); congruence.
Qed.

Lemma summary_step_get symbol fetched : ∀ summary,
  Dict.wf fetched →
  Dict.get symbol (foldl summary_step summary fetched) =
    match Dict.get symbol fetched with
    | Some stats =>
        match analyse stats with
        | Computed performance => Some performance
        | _ => Dict.get symbol summary
        end
    | None => Dict.get symbol summary
    end.
Proof.
  induction fetched as [|[k stats] fetched IH]; intros summary Hwf; [done|].
  apply NoDup_cons in Hwf as [Hk Hwf]. simpl. rewrite (IH _ Hwf). clear IH.
  unfold summary_step. simpl.
  destruct (String.eqb_spec symbol k) as [->|Hne].
  - simpl in Hk. apply dict_get_None in Hk. rewrite Hk.
    destruct (analyse stats); [apply dict_get_set_eq | done | done].
  - assert (Hsame : Dict.get symbol
        match analyse stats with
        | Computed performance => Dict.set k performance summary
        | _ => summary
        end = Dict.get symbol summary).
    { destruct (analyse stats); [by apply dict_get_set_ne | done | done]. }
    by rewrite Hsame.
Qed.

Lemma summary_of_get symbol fetched :
  Dict.wf fetched →
  Dict.get symbol (summary_of fetched) =
    match Dict.get symbol fetched with
    | Some stats =>
        match analyse stats with
        | Computed performance => Some performance
        | _ => None
        end
    | None => None
    end.
Proof. intros Hwf. unfold summary_of. by rewrite summary_step_get. Qed.

Lemma summary_step_keys fetched : ∀ summary symbol,
  symbol ∈ Dict.keys (foldl summary_step summary fetched) →
  symbol ∈ Dict.keys summary ∨ symbol ∈ Dict.keys fetched.
Proof.
  induction fetched as [|[k stats] fetched IH]; intros summary symbol Hin; [by left|].
  simpl in Hin. apply IH in Hin as [Hin|Hin].
  - unfold summary_step in Hin. simpl in Hin.
    destruct (analyse stats); [|by left|by left].
    apply dict_elem_of_keys_set in Hin as [->|Hin]; [right|by left].
    apply elem_of_cons. by left.
  - right. apply elem_of_cons. by right.
Qed.

Lemma summary_of_keys fetched symbol :
  symbol ∈ Dict.keys (summary_of fetched) → symbol ∈ Dict.keys fetched.
Proof.
  intros [Hin|Hin]%summary_step_keys; [|done]. by apply elem_of_nil in Hin.
Qed.

Lemma summary_step_wf fetched : ∀ summary,
  Dict.wf summary → Dict.wf (foldl summary_step summary fetched).
Proof.
  induction fetched as [|[k stats] fetched IH]; intros summary Hwf; [done|].
  simpl. apply IH. unfold summary_step. simpl.
  destruct (analyse stats); [by apply dict_wf_set | done | done].
Qed.

Lemma summary_of_wf fetched : Dict.wf (summary_of fetched).
Proof. apply summary_step_wf, dict_wf_empty. Qed.

Lemma elem_of_concat_fmap {A B} (f : A → list B) (l : list A) (y : B) :
  y ∈ concat (f <$> l) ↔ ∃ x, x ∈ l ∧ y ∈ f x.
Proof.
  induction l as [|x l IH]; simpl.
  - split; [by intros ?%elem_of_nil | by intros (x & ?%elem_of_nil & _)].
  - rewrite elem_of_app, IH. split.
    + intros [Hy|(x' & Hx' & Hy)].
      * exists x. split; [apply elem_of_cons; by left | done].
      * exists x'. split; [apply elem_of_cons; by right | done].
    + intros (x' & [->|Hx']%elem_of_cons & Hy); [by left|]. right. by exists x'.
Qed.

Lemma elem_of_analysis_log r fetched :
  r ∈ analysis_log fetched ↔ ∃ item, item ∈ fetched ∧ r ∈ analysis_record item.
Proof. apply elem_of_concat_fmap. Qed.

(** The summary object after the call, for a non-empty mapping. *)
Lemma performance_summary_of_spec data w fetched :
  heap w !! data = Some fetched →
  performance_summary_of data w =
    if Dict.nonempty fetched then Some (summary_of fetched) else None.
Proof.
  intros Hdata. unfold performance_summary_of.
  rewrite (calculate_performance_spec _ _ _ Hdata).
  destruct (Dict.nonempty fetched); simpl.
  - by apply list_lookup_middle.
  - by apply lookup_ge_None_2.
Qed.

(** ** The Fetcher *)

(** A batch in which every answer is a table or an [Exception] runs to its
    end: one request per symbol, in order, one object allocated. *)
Lemma fetch_asset_data_spec env w :
  (∀ i s, symbols w !! i = Some s →
          ordinary (history env (length (requests w) + i) s) = true) →
  fetch_asset_data env w =
    (Ok (length (heap w)),
     World (symbols w)
       (heap w ++ [fetched_of env (length (requests w)) (symbols w) Dict.empty])
       (log w ++ LogRecord INFO "Fetching asset data..."
              :: fetch_log env (length (requests w)) (symbols w))
       (requests w ++ symbols w) (sleeps w)).
Proof.
  intros Hord. unfold fetch_asset_data.
  rewrite bind_new_dict, bind_logging. unfold bind at 1, self_symbols at 1.
  set (r := length (heap w)).
  match goal with |- context [for_each _ ?b] => set (body := b) end.
  assert (Hloop : ∀ syms w' data,
    heap w' !! r = Some data →
    (∀ i s, syms !! i = Some s →
            ordinary (history env (length (requests w') + i) s) = true) →
    for_each syms body w' =
      (Ok tt,
       World (symbols w')
         (<[r := fetched_of env (length (requests w')) syms data]> (heap w'))
         (log w' ++ fetch_log env (length (requests w')) syms)
         (requests w' ++ syms) (sleeps w'))).
  { clear. induction syms as [|symbol syms IH]; intros w' data Hr Hord; simpl.
    - rewrite (list_insert_id _ _ _ Hr), !app_nil_r. by destruct w'.
    - set (n := length (requests w')).
      assert (Hstep : body symbol w' =
        (Ok tt,
         World (symbols w')
           (<[r := fetch_step (history env n symbol) symbol data]> (heap w'))
           (log w' ++ fetch_record (history env n symbol) symbol)
           (requests w' ++ [symbol]) (sleeps w'))).
      { subst body. cbv beta. unfold try_except, bind, yf_history. fold n.
        pose proof (Hord 0%nat symbol eq_refl) as H0. rewrite Nat.add_0_r in H0.
        fold n in H0. destruct (history env n symbol) as [hist|e]; simpl in H0.
        - unfold fetch_step, fetch_record.
          destruct (df_empty hist); cbv beta iota delta [negb].
          + rewrite (list_insert_id _ _ _ Hr). reflexivity.
          + unfold setitem, add_request. cbn [heap]. rewrite Hr.
            unfold set_heap. cbn [symbols heap log requests sleeps]. by rewrite app_nil_r.
        - unfold except_Exception. rewrite H0. simpl fetch_step.
          rewrite (list_insert_id _ _ _ Hr). reflexivity. }
      rewrite (bind_ok _ _ _ _ _ Hstep).
      rewrite (IH _ (fetch_step (history env n symbol) symbol data)).
      + cbn [symbols heap log requests sleeps]. rewrite list_insert_insert_eq.
        rewrite length_app. simpl length. rewrite Nat.add_1_r. fold n.
        by rewrite <- !app_assoc.
      + simpl heap. apply list_lookup_insert_eq. by eapply lookup_lt_Some.
      + intros i s Hi. cbn [requests]. rewrite length_app. simpl length.
        fold n. replace (n + 1 + i)%nat with (n + S i)%nat by lia. by apply Hord. }
  assert (Hnew : heap (add_logs [LogRecord INFO "Fetching asset data..."]
                         (set_heap (heap w ++ [Dict.empty]) w)) !! r = Some Dict.empty).
  { simpl heap. subst r. by apply list_lookup_middle. }
  rewrite (bind_ok _ _ _ _ _ (Hloop _ _ _ Hnew Hord)).
  unfold ret. f_equal. cbn [symbols heap log requests sleeps add_logs set_heap].
  f_equal.
  - subst r. rewrite insert_app_r_alt by done. by rewrite Nat.sub_diag.
  - by rewrite <- app_assoc.
Qed.

(** *** What the fetched mapping contains *)

Lemma fetch_step_get_ne r s t data :
  s ≠ t → Dict.get t (fetch_step r s data) = Dict.get t data.
Proof.
  intros Hne. unfold fetch_step. destruct r as [hist|e]; [|done].
  destruct (df_empty hist); [done|]. by apply dict_get_set_ne.
Qed.

Lemma fetch_step_no_data r s data : no_data r = true → fetch_step r s data = data.
Proof. destruct r as [hist|e]; simpl; [by intros ->|done]. Qed.

Lemma fetched_of_get_no_data env t : ∀ syms n data,
  (∀ i, syms !! i = Some t → no_data (history env (n + i) t) = true) →
  Dict.get t (fetched_of env n syms data) = Dict.get t data.
Proof.
  induction syms as [|s syms IH]; intros n data Hno; [done|]. simpl.
  rewrite IH.
  - destruct (decide (s = t)) as [->|Hne]; [|by apply fetch_step_get_ne].
    rewrite fetch_step_no_data; [done|].
    specialize (Hno 0%nat eq_refl). by rewrite Nat.add_0_r in Hno.
  - intros i Hi. replace (S n + i)%nat with (n + S i)%nat by lia. by apply Hno.
Qed.

Lemma fetched_of_get_Some env t stats : ∀ syms n data,
  Dict.get t (fetched_of env n syms data) = Some stats →
  Dict.get t data = Some stats ∨
  ∃ i hist, syms !! i = Some t ∧ history env (n + i) t = Returns hist
          ∧ df_empty hist = false ∧ stats = iloc_last_to_dict hist.
Proof.
  induction syms as [|s syms IH]; intros n data Hget; [by left|].
  simpl in Hget. apply IH in Hget as [Hget|(i & hist & Hi & Hhist & Hne & ->)].
  - destruct (decide (s = t)) as [->|Hst]; [|left; by rewrite fetch_step_get_ne in Hget].
    unfold fetch_step in Hget. destruct (history env n t) as [hist|e] eqn:Hr; [|by left].
    destruct (df_empty hist) eqn:Hempty; [by left|].
    rewrite dict_get_set_eq in Hget. injection Hget as <-.
    right. exists 0%nat, hist. by rewrite Nat.add_0_r.
  - right. exists (S i), hist. replace (n + S i)%nat with (S n + i)%nat by lia. done.
Qed.

Lemma fetched_of_get_last env t hist : ∀ syms n data i,
  syms !! i = Some t →
  history env (n + i) t = Returns hist → df_empty hist = false →
  (∀ j, (i < j)%nat → syms !! j = Some t → no_data (history env (n + j) t) = true) →
  Dict.get t (fetched_of env n syms data) = Some (iloc_last_to_dict hist).
Proof.
  induction syms as [|s syms IH]; intros n data i Hi Hhist Hne Hlater; [done|].
  destruct i as [|i]; simpl.
  - injection Hi as ->. rewrite Nat.add_0_r in Hhist.
    rewrite fetched_of_get_no_data.
    + unfold fetch_step. rewrite Hhist, Hne. apply dict_get_set_eq.
    + intros j Hj. replace (S n + j)%nat with (n + S j)%nat by lia.
      apply Hlater; [lia | done].
  - apply (IH _ _ i); [done | | done |].
    + by replace (S n + i)%nat with (n + S i)%nat by lia.
    + intros j Hij Hj. replace (S n + j)%nat with (n + S j)%nat by lia.
      apply Hlater; [lia | done].
Qed.

Lemma fetch_log_elem_of env r : ∀ syms n i s,
  syms !! i = Some s → r ∈ fetch_record (history env (n + i) s) s →
  r ∈ fetch_log env n syms.
Proof.
  induction syms as [|s' syms IH]; intros n i s Hi Hr; [done|].
  simpl. apply elem_of_app. destruct i as [|i].
  - injection Hi as ->. rewrite Nat.add_0_r in Hr. by left.
  - right. apply (IH _ i s); [done|].
    by replace (S n + i)%nat with (n + S i)%nat by lia.
Qed.

(** A property of the world that every iteration keeps holds when the loop
    is left, whether it ran to its end or was left by an exception. *)
Lemma for_each_invariant {A} (I : world → Prop) (l : list A) (body : A → M unit) :
  (∀ x w, x ∈ l → I w → I (snd (body x w))) →
  ∀ w, I w → I (snd (for_each l body w)).
Proof.
  induction l as [|x l IH]; intros Hbody w Hw; [done|].
  simpl. unfold bind. pose proof (Hbody x w) as Hx.
  destruct (body x w) as [[[]|e] w']; simpl in Hx.
  - apply IH.
    + intros y w'' Hy. apply Hbody, elem_of_cons. by right.
    + apply Hx; [|done]. apply elem_of_cons. by left.
  - apply Hx; [|done]. apply elem_of_cons. by left.
Qed.

(** Whatever the provider answers, the object that [fetch_asset_data]
    allocates is a well-formed dict whose keys are tracked symbols, and it
    is the object returned if the batch returns. *)
Lemma fetch_asset_data_keys env w :
  (∃ fetched, heap (snd (fetch_asset_data env w)) !! length (heap w) = Some fetched
            ∧ Dict.wf fetched
            ∧ ∀ s, s ∈ Dict.keys fetched → s ∈ symbols w)
  ∧ ∀ r, fst (fetch_asset_data env w) = Ok r → r = length (heap w).
Proof.
  unfold fetch_asset_data.
  rewrite bind_new_dict, bind_logging, bind_self_symbols.
  set (r := length (heap w)).
  match goal with |- context [for_each _ ?b] => set (body := b) end.
  set (w0 := add_logs _ _). change (symbols w0) with (symbols w).
  set (I := λ w' : world,
    ∃ fetched, heap w' !! r = Some fetched ∧ Dict.wf fetched
             ∧ ∀ s, s ∈ Dict.keys fetched → s ∈ symbols w).
  assert (Hloop : I (snd (for_each (symbols w) body w0))).
  { apply for_each_invariant.
    - intros symbol w' Hsym (fetched & Hr & Hwf & Hkeys). subst body. cbv beta.
      unfold try_except, bind, yf_history.
      destruct (history env (length (requests w')) symbol) as [hist|e].
      + destruct (df_empty hist); cbv beta iota delta [negb].
        * by exists fetched.
        * unfold setitem, add_request. cbn [heap]. rewrite Hr. simpl.
          exists (Dict.set symbol (iloc_last_to_dict hist) fetched). split_and!.
          -- apply list_lookup_insert_eq. by eapply lookup_lt_Some.
          -- by apply dict_wf_set.
          -- intros s [->|Hs]%dict_elem_of_keys_set; auto.
      + unfold except_Exception. destruct (is_Exception e); by exists fetched.
    - exists Dict.empty. split_and!.
      + subst w0 r. simpl. by apply list_lookup_middle.
      + apply dict_wf_empty.
      + by intros s ?%elem_of_nil. }
  unfold bind. revert Hloop. generalize (for_each (symbols w) body w0).
  intros [[[]|e] w'] Hloop; (split; [exact Hloop|]); simpl.
  - by intros ? [= <-].
  - discriminate.
Qed.

(** ** Invariants of computations *)

Section Preserves.
Variable I : world → Prop.

Lemma preserves_ret {A} (a : A) : preserves I (ret a).
Proof. by intros w Hw. Qed.

Lemma preserves_lift {A} (o : outcome A) : preserves I (lift o).
Proof. by intros w Hw. Qed.

Lemma preserves_load r : preserves I (load r).
Proof. intros w Hw. unfold load. by destruct (heap w !! r). Qed.

Lemma preserves_bind {A B} (m : M A) (k : A → M B) :
  preserves I m → (∀ a, preserves I (k a)) → preserves I (bind m k).
Proof.
  intros Hm Hk w Hw. unfold bind. specialize (Hm w Hw).
  destruct (m w) as [[a|e] w']; [by apply Hk | done].
Qed.

Lemma preserves_if {A} (b : bool) (m1 m2 : M A) :
  preserves I m1 → preserves I m2 → preserves I (if b then m1 else m2).
Proof. by destruct b. Qed.

Lemma preserves_for_each {A} (l : list A) (body : A → M unit) :
  (∀ x, x ∈ l → preserves I (body x)) → preserves I (for_each l body).
Proof. intros Hbody w Hw. apply for_each_invariant; [|done]. intros x w' Hx. by apply Hbody. Qed.

End Preserves.

(** Every record the Reporter writes has level INFO. *)
Lemma display_output_INFO summary r :
  r ∈ snd (display_output summary) → levelname r = INFO.
Proof.
  unfold display_output. cbv zeta. cbn [snd].
  set (I := λ w : world, Forall (λ r, levelname r = INFO) (log w)).
  assert (Hlog : ∀ msg, preserves I (logging INFO msg)).
  { intros msg w Hw. unfold I in *. simpl. apply Forall_app. split; [done|].
    by repeat constructor. }
  assert (Hdisplay : preserves I (display_performance 0%nat)).
  { unfold display_performance. apply preserves_bind; [apply preserves_load|].
    intros s. apply preserves_if; [apply Hlog|].
    apply preserves_bind; [apply Hlog|]. intros _.
    apply preserves_for_each. intros [symbol performance] _.
    repeat (first [ apply Hlog | apply preserves_lift
                  | apply preserves_bind; [|intros ?] ]). }
  intros Hr. specialize (Hdisplay (World [] [summary] [] [] []) (Forall_nil_2 _)).
  unfold I in Hdisplay. rewrite Forall_forall in Hdisplay. by apply Hdisplay.
Qed.

Lemma emitted_app {A} (m : M A) w l :
  log (snd (m w)) = log w ++ l → emitted m w = l.
Proof. intros Hl. unfold emitted. rewrite Hl. apply drop_app_length. Qed.

Lemma emitted_calculate_performance data w fetched :
  heap w !! data = Some fetched →
  emitted (calculate_performance data) w =
    if Dict.nonempty fetched then
      [LogRecord INFO "Calculating asset performance..."]
        ++ analysis_log fetched ++ snd (display_output (summary_of fetched))
    else [LogRecord WARNING "No data to calculate performance."].
Proof.
  intros Hdata. apply emitted_app. rewrite (calculate_performance_spec _ _ _ Hdata).
  by destruct (Dict.nonempty fetched).
Qed.

Lemma result_for_spec data w fetched symbol :
  heap w !! data = Some fetched → Dict.wf fetched →
  result_for data w symbol =
    match Dict.get symbol fetched with
    | Some stats =>
        match analyse stats with
        | Computed performance => Some performance
        | _ => None
        end
    | None => None
    end.
Proof.
  intros Hdata Hwf. unfold result_for.
  rewrite (performance_summary_of_spec _ _ _ Hdata).
  destruct fetched as [|item fetched]; [done|]. simpl Dict.nonempty. cbv iota.
  by apply summary_of_get.
Qed.

(** * The claims *)

(** ** Analyzer *)

(** C1 as stated fails: for a record with both fields present and a nonzero
    open, 200.0, but a zero close, the guard skips the record, so there is no
    performance result for the symbol at all, and none with the change
    [((0.0 - 200.0) / 200.0) * 100]. *)
Lemma C1_zero_close_has_no_result :
  let stats := [("Open", pyfloat 200); ("Close", pyfloat 0)] in
  heap zero_close !! 0%nat = Some [("TSLA", stats)]
  ∧ Dict.get "Open" stats = Some (PyFloat (Float.of_Z 200))
  ∧ Dict.get "Close" stats = Some (PyFloat (Float.of_Z 0))
  ∧ Float.is_zero (Float.of_Z 200) = false
  ∧ result_for 0%nat zero_close "TSLA" = None
  ∧ result_for 0%nat zero_close "TSLA"
    ≠ Some (PerformanceResult (Float.of_Z 200) (Float.of_Z 0)).
Proof. vm_compute. by repeat split. Qed.

(** C1, amended.  For a fetched record whose 'Open' and 'Close' fields are
    present (floats [o] and [c]) and both nonzero, [calculate_performance]
    produces a performance result for the symbol, and that result is exactly
    [PerformanceResult o c]: 'Open Price' is [o], 'Close Price' is [c] and
    'Change (%)' is the binary64 value of [((c - o) / o) * 100]. *)
Theorem C1_change_percent data w fetched symbol stats o c :
  heap w !! data = Some fetched →
  Dict.wf fetched →
  Dict.get symbol fetched = Some stats →
  Dict.get "Open" stats = Some (PyFloat o) →
  Dict.get "Close" stats = Some (PyFloat c) →
  Float.is_zero o = false →
  Float.is_zero c = false →
  result_for data w symbol = Some (PerformanceResult o c).
Proof.
  intros Hdata Hwf Hstats Ho Hc Hoz Hcz.
  rewrite (result_for_spec _ _ _ _ Hdata Hwf), Hstats.
  assert (Han : analyse stats = Computed (PerformanceResult o c)).
  { apply analyse_Computed. by exists o, c. }
  by rewrite Han.
Qed.

(** Scenario 1 of the specification: AAPL opens at 150.0 and closes at
    153.0; the change is exactly 2.0. *)
Lemma C1_scenario_AAPL :
  result_for 0%nat scenario_1 "AAPL"
  = Some [("Open Price", pyfloat 150); ("Close Price", pyfloat 153);
          ("Change (%)", pyfloat 2)].
Proof.
  refine (eq_trans
    (C1_change_percent 0%nat scenario_1 _ "AAPL" _
       (Float.of_Z 150) (Float.of_Z 153)
       eq_refl _ eq_refl eq_refl eq_refl eq_refl eq_refl) _).
  - apply NoDup_singleton.
  - vm_compute. reflexivity.
Defined.

(** C2 as stated fails: a record with both fields present and a nonzero
    open, but a zero close, gets no result. *)
Lemma C2_zero_close_is_skipped :
  let stats := [("Open", pyfloat 200); ("Close", pyfloat 0)] in
  heap zero_close !! 0%nat = Some [("TSLA", stats)]
  ∧ Dict.get "Open" stats = Some (pyfloat 200)
  ∧ Dict.get "Close" stats = Some (pyfloat 0)
  ∧ truthy (pyfloat 200) = true
  ∧ performance_summary_of 0%nat zero_close = Some []
  ∧ result_for 0%nat zero_close "TSLA" = None.
Proof. vm_compute. by repeat split. Qed.

(** C2, amended.  [calculate_performance] produces a result for exactly
    those symbols of the fetched mapping whose record has both 'Open' and
    'Close' present as nonzero floats. *)
Theorem C2_result_iff_both_truthy data w fetched symbol :
  heap w !! data = Some fetched →
  Dict.wf fetched →
  is_Some (result_for data w symbol) ↔
  ∃ stats o c,
    Dict.get symbol fetched = Some stats
    ∧ Dict.get "Open" stats = Some (PyFloat o)
    ∧ Dict.get "Close" stats = Some (PyFloat c)
    ∧ Float.is_zero o = false ∧ Float.is_zero c = false.
Proof.
  intros Hdata Hwf. rewrite (result_for_spec _ _ _ _ Hdata Hwf). split.
  - destruct (Dict.get symbol fetched) as [stats|]; [|by intros [? [=]]].
    destruct (analyse stats) as [p| |e] eqn:Han; try by intros [? [=]].
    intros _. apply analyse_Computed in Han as (o & c & Ho & Hc & Hoz & Hcz & _).
    by exists stats, o, c.
  - intros (stats & o & c & -> & Ho & Hc & Hoz & Hcz).
    assert (Han : analyse stats = Computed (PerformanceResult o c)).
    { apply analyse_Computed. by exists o, c. }
    by rewrite Han.
Qed.

(** AAPL of scenario 1, with both prices nonzero, gets a result. *)
Lemma C2_witness : is_Some (result_for 0%nat scenario_1 "AAPL").
Proof.
  apply (C2_result_iff_both_truthy 0%nat scenario_1 _ "AAPL" eq_refl (NoDup_singleton _)).
  by eexists _, (Float.of_Z 150), (Float.of_Z 153).
Defined.

(** C4 as stated fails: on the empty fetched mapping the Analyzer returns
    before it calls the Reporter; the only record is the Analyzer's warning,
    and the notice of the Reporter is not written. *)
Lemma C4_empty_fetch_skips_reporter :
  heap scenario_3 !! 0%nat = Some []
  ∧ calculate_performance 0%nat scenario_3 =
      (Ok tt,
       World ["AAPL"] [[]]
         [LogRecord WARNING "No data to calculate performance."] [] [])
  ∧ LogRecord INFO "No performance data to display."
      ∉ log (snd (calculate_performance 0%nat scenario_3)).
Proof.
  split_and!; [reflexivity | reflexivity |].
  by intros [=]%list_elem_of_singleton.
Qed.

(** C4, amended.  On an empty fetched mapping [calculate_performance]
    writes the single warning "No data to calculate performance." and returns
    without calling the Reporter and without raising; nothing else changes.
    The Reporter writes its single notice "No performance data to display."
    when the summary it is given is empty, and nothing per symbol. *)
Theorem C4_empty_mapping data performance_summary w :
  heap w !! data = Some [] →
  heap w !! performance_summary = Some [] →
  calculate_performance data w =
    (Ok tt, add_logs [LogRecord WARNING "No data to calculate performance."] w)
  ∧ display_performance performance_summary w =
    (Ok tt, add_logs [LogRecord INFO "No performance data to display."] w).
Proof.
  intros Hdata Hsummary. split.
  - by rewrite (calculate_performance_spec _ _ _ Hdata).
  - by rewrite (display_performance_spec _ _ _ Hsummary).
Qed.

(** Scenario 3 of the specification, for the Analyzer and for the Reporter. *)
Lemma C4_witness :
  calculate_performance 0%nat scenario_3 =
    (Ok tt, add_logs [LogRecord WARNING "No data to calculate performance."] scenario_3)
  ∧ display_performance 0%nat scenario_3 =
    (Ok tt, add_logs [LogRecord INFO "No performance data to display."] scenario_3).
Proof. exact (C4_empty_mapping 0%nat 0%nat scenario_3 eq_refl eq_refl). Defined.

(** C5.  Calling [calculate_performance] twice in a row on the same fetched
    mapping gives the same outcome, the same performance summary (same
    symbols, same 'Open Price', 'Close Price' and 'Change (%)') and the same
    log records both times. *)
Theorem C5_idempotent data w :
  let first := calculate_performance data w in
  let second := calculate_performance data (snd first) in
  fst second = fst first
  ∧ performance_summary_of data (snd first) = performance_summary_of data w
  ∧ emitted (calculate_performance data) (snd first)
    = emitted (calculate_performance data) w.
Proof.
  cbv zeta. destruct (heap w !! data) as [fetched|] eqn:Hdata.
  - assert (Hdata' : heap (snd (calculate_performance data w)) !! data = Some fetched).
    { rewrite (calculate_performance_spec _ _ _ Hdata).
      destruct (Dict.nonempty fetched); [|done]. simpl. by apply lookup_app_l_Some. }
    rewrite (performance_summary_of_spec _ _ _ Hdata).
    rewrite (performance_summary_of_spec _ _ _ Hdata').
    rewrite (emitted_calculate_performance _ _ _ Hdata).
    rewrite (emitted_calculate_performance _ _ _ Hdata').
    rewrite (calculate_performance_spec _ _ _ Hdata').
    rewrite (calculate_performance_spec _ _ _ Hdata).
    by destruct (Dict.nonempty fetched).
  - assert (Hsame : calculate_performance data w = (Raise dangling, w)).
    { unfold calculate_performance, bind, load. by rewrite Hdata. }
    unfold performance_summary_of, emitted. rewrite Hsame. cbn [snd]. by rewrite Hsame.
Qed.

(** *** Telling the messages of two exceptions apart *)

Lemma append_cons a s t : String a s +:+ t = String a (s +:+ t).
Proof. reflexivity. Qed.

Lemma append_nonempty s t : t ≠ "" → s +:+ t ≠ "".
Proof. intros Ht. destruct s; [done|]. by rewrite append_cons. Qed.

Lemma last_char_app s t : t ≠ "" → last_char (s +:+ t) = last_char t.
Proof.
  intros Ht. induction s as [|a s IH]; [done|].
  rewrite append_cons. pose proof (append_nonempty s t Ht) as Hne.
  simpl. by destruct (s +:+ t).
Qed.

Lemma last_char_calculation_error symbol e :
  str e ≠ "" →
  last_char (message (calculation_error symbol e)) = last_char (str e).
Proof.
  intros He. unfold calculation_error. cbn [message].
  rewrite !last_char_app; auto using append_nonempty.
Qed.

Lemma last_char_unsupported op a b :
  last_char (str (unsupported op a b)) = Some "'"%char.
Proof.
  unfold unsupported. cbn [str]. by rewrite !last_char_app by auto using append_nonempty.
Qed.

Lemma calculation_error_not_division symbol symbol' a b :
  calculation_error symbol (unsupported "-" a b)
  ≠ calculation_error symbol' division_by_zero.
Proof.
  intros Heq. apply (f_equal (λ r, last_char (message r))) in Heq.
  rewrite !last_char_calculation_error in Heq.
  - rewrite last_char_unsupported in Heq. discriminate Heq.
  - discriminate.
  - intros Hempty. apply (f_equal last_char) in Hempty.
    rewrite last_char_unsupported in Hempty. discriminate Hempty.
Qed.

(** Behind the guard of the loop the divisor is a nonzero float. *)
Lemma guarded_division open_price close_price difference :
  truthy open_price && truthy close_price = true →
  py_sub close_price open_price = Ok difference →
  ∃ ratio, py_truediv difference open_price = Ok ratio.
Proof.
  intros [Hopen _]%andb_true_iff Hsub.
  destruct open_price as [|o|so], close_price as [|c|sc]; try discriminate Hsub.
  injection Hsub as <-. simpl in *. apply negb_true_iff in Hopen. rewrite Hopen.
  by eexists.
Qed.

(** C6.  Division by zero is unreachable in [calculate_performance]: on
    every well-formed mapping the call returns normally; every record whose
    'Open' or 'Close' is missing, [None] or zero is skipped with the warning
    and gets no result; the division behind the guard always has a nonzero
    divisor and returns; the only errors the loop ever logs are the
    [TypeError] of the subtraction on non-numeric fields, and no
    [ZeroDivisionError] is ever logged. *)
Theorem C6_no_division_by_zero data w fetched :
  heap w !! data = Some fetched →
  Dict.wf fetched →
  fst (calculate_performance data w) = Ok tt
  ∧ (∀ symbol stats,
       Dict.get symbol fetched = Some stats →
       truthy (record_get stats "Open") = false
       ∨ truthy (record_get stats "Close") = false →
       invalid_data symbol ∈ emitted (calculate_performance data) w
       ∧ result_for data w symbol = None)
  ∧ (∀ symbol stats difference,
       Dict.get symbol fetched = Some stats →
       truthy (record_get stats "Open") && truthy (record_get stats "Close") = true →
       py_sub (record_get stats "Close") (record_get stats "Open") = Ok difference →
       ∃ ratio, py_truediv difference (record_get stats "Open") = Ok ratio)
  ∧ (∀ r,
       r ∈ emitted (calculate_performance data) w → levelname r = ERROR →
       ∃ symbol stats,
         Dict.get symbol fetched = Some stats
         ∧ r = calculation_error symbol
                 (unsupported "-" (record_get stats "Close") (record_get stats "Open")))
  ∧ (∀ symbol,
       calculation_error symbol division_by_zero
       ∉ emitted (calculate_performance data) w).
Proof.
  intros Hdata Hwf.
  assert (Herrors : ∀ r,
    r ∈ emitted (calculate_performance data) w → levelname r = ERROR →
    ∃ symbol stats,
      Dict.get symbol fetched = Some stats
      ∧ r = calculation_error symbol
              (unsupported "-" (record_get stats "Close") (record_get stats "Open"))).
  { intros r. rewrite (emitted_calculate_performance _ _ _ Hdata).
    destruct (Dict.nonempty fetched).
    - rewrite !elem_of_app.
      intros [->%list_elem_of_singleton|[Hr|Hr%display_output_INFO]] Hlevel;
        [discriminate Hlevel | | congruence].
      apply elem_of_analysis_log in Hr as ([symbol stats] & Hitem & Hr).
      exists symbol, stats. split; [by apply dict_elem_of_get|].
      unfold analysis_record in Hr. simpl in Hr.
      destruct (analyse stats) as [p| |e] eqn:Han.
      + by apply elem_of_nil in Hr.
      + apply list_elem_of_singleton in Hr as ->. discriminate Hlevel.
      + apply list_elem_of_singleton in Hr as ->. by apply analyse_Failed in Han as ->.
    - intros ->%list_elem_of_singleton. discriminate. }
  split_and!.
  - rewrite (calculate_performance_spec _ _ _ Hdata). by destruct (Dict.nonempty fetched).
  - intros symbol stats Hstats Hfalsy. apply analyse_Skipped in Hfalsy. split.
    + rewrite (emitted_calculate_performance _ _ _ Hdata).
      destruct fetched as [|item fetched]; [done|]. simpl Dict.nonempty. cbv iota.
      rewrite !elem_of_app. right; left. apply elem_of_analysis_log.
      exists (symbol, stats). split; [by apply dict_get_elem_of|].
      unfold analysis_record. simpl. rewrite Hfalsy. by apply list_elem_of_singleton.
    + by rewrite (result_for_spec _ _ _ _ Hdata Hwf), Hstats, Hfalsy.
  - intros symbol stats difference _. apply guarded_division.
  - exact Herrors.
  - intros symbol Hin. destruct (Herrors _ Hin eq_refl) as (symbol' & stats & _ & Heq).
    symmetry in Heq. by apply calculation_error_not_division in Heq.
Qed.

(** Scenario 2 of the specification: TSLA opens at 0.0; no result, one
    warning. *)
Lemma C6_scenario_TSLA :
  fst (calculate_performance 0%nat scenario_2) = Ok tt
  ∧ invalid_data "TSLA" ∈ emitted (calculate_performance 0%nat) scenario_2
  ∧ result_for 0%nat scenario_2 "TSLA" = None.
Proof.
  destruct (C6_no_division_by_zero 0%nat scenario_2 _ eq_refl (NoDup_singleton _))
    as (Hok & Hskip & _).
  split; [exact Hok|]. apply (Hskip "TSLA" _ eq_refl). by left.
Defined.

(** C9.  Frame property: [calculate_performance] and [display_performance]
    leave [self.symbols], the fetched mapping with every record in it and
    every other object unchanged.  The Analyzer only allocates the fresh
    summary (none on an empty mapping) and writes log records; the Reporter
    only writes log records. *)
Theorem C9_frame data performance_summary w :
  let after_calculate := snd (calculate_performance data w) in
  let after_display := snd (display_performance performance_summary w) in
  (symbols after_calculate = symbols w
   ∧ (∀ r object, heap w !! r = Some object → heap after_calculate !! r = Some object)
   ∧ ∃ records,
       after_calculate = add_logs records w
       ∨ ∃ summary,
           after_calculate = add_logs records (set_heap (heap w ++ [summary]) w))
  ∧ (symbols after_display = symbols w
     ∧ heap after_display = heap w
     ∧ ∃ records, after_display = add_logs records w).
Proof.
  cbv zeta. split.
  - destruct (heap w !! data) as [fetched|] eqn:Hdata.
    + rewrite (calculate_performance_spec _ _ _ Hdata).
      destruct (Dict.nonempty fetched); cbn [snd].
      * split_and!; [done | intros r object Hr; by apply lookup_app_l_Some |].
        eexists. right. exists (summary_of fetched). reflexivity.
      * split_and!; [done | done |]. eexists. by left.
    + assert (Hsame : calculate_performance data w = (Raise dangling, w)).
      { unfold calculate_performance, bind, load. by rewrite Hdata. }
      rewrite Hsame. cbn [snd]. split_and!; [done | done |].
      exists []. left. by rewrite add_logs_nil.
  - destruct (heap w !! performance_summary) as [summary|] eqn:Hsummary.
    + rewrite (display_performance_spec _ _ _ Hsummary). cbn [snd].
      split_and!; [done | done |]. by eexists.
    + assert (Hsame : display_performance performance_summary w = (Raise dangling, w)).
      { unfold display_performance, bind, load. by rewrite Hsummary. }
      rewrite Hsame. cbn [snd]. split_and!; [done | done |].
      exists []. by rewrite add_logs_nil.
Qed.

(** C10.  The symbols of the performance summary are symbols of the fetched
    mapping, and the mapping that [fetch_asset_data] returns holds only
    symbols of [self.symbols]; in both dicts a symbol occurs once. *)
Theorem C10_symbols_subset env data w fetched :
  heap w !! data = Some fetched →
  (∀ summary,
     performance_summary_of data w = Some summary →
     Dict.wf summary ∧ ∀ s, s ∈ Dict.keys summary → s ∈ Dict.keys fetched)
  ∧ (∀ r w',
       fetch_asset_data env w = (Ok r, w') →
       ∃ returned,
         heap w' !! r = Some returned
         ∧ Dict.wf returned
         ∧ ∀ s, s ∈ Dict.keys returned → s ∈ symbols w).
Proof.
  intros Hdata. split.
  - intros summary. rewrite (performance_summary_of_spec _ _ _ Hdata).
    destruct (Dict.nonempty fetched); [|discriminate]. intros [= <-].
    split; [apply summary_of_wf | apply summary_of_keys].
  - intros r w' Hfetch.
    destruct (fetch_asset_data_keys env w) as [Hobject Hreturned].
    rewrite Hfetch in Hobject, Hreturned. cbn [fst snd] in *.
    by rewrite (Hreturned r eq_refl).
Qed.

(** Scenario 1 as fetched mapping, and a batch against the provider of
    scenario 4 for the tracker of AAPL. *)
Lemma C10_witness :
  (∀ summary,
     performance_summary_of 0%nat scenario_1 = Some summary →
     Dict.wf summary
     ∧ ∀ s, s ∈ Dict.keys summary
            → s ∈ Dict.keys [("AAPL", [("Open", pyfloat 150); ("Close", pyfloat 153)])])
  ∧ (∀ r w',
       fetch_asset_data scenario_4 scenario_1 = (Ok r, w') →
       ∃ returned,
         heap w' !! r = Some returned
         ∧ Dict.wf returned
         ∧ ∀ s, s ∈ Dict.keys returned → s ∈ ["AAPL"]).
Proof. exact (C10_symbols_subset scenario_4 0%nat scenario_1 _ eq_refl). Defined.

(** ** Fetcher *)

(** C3.  A failure for one symbol is isolated.  In a batch where every
    answer of the provider is a table or an [Exception], [fetch_asset_data]
    always returns the mapping it allocated (the batch is never aborted), and
    - a symbol for which the provider only raised or returned empty tables is
      absent from the mapping;
    - every symbol of the mapping got a non-empty table, whose last row is
      its record;
    - every empty table is logged as a warning and every exception as an
      error;
    - the record of a symbol is the last row of the last non-empty table the
      provider returned for it, whatever the answers for other symbols. *)
Theorem C3_fetch_failure_isolated env w :
  let n := length (requests w) in
  (∀ i s, symbols w !! i = Some s → ordinary (history env (n + i) s) = true) →
  ∃ fetched w',
    fetch_asset_data env w = (Ok (length (heap w)), w')
    ∧ heap w' = heap w ++ [fetched]
    ∧ (∀ s, (∀ i, symbols w !! i = Some s → no_data (history env (n + i) s) = true) →
            Dict.get s fetched = None)
    ∧ (∀ s stats,
         Dict.get s fetched = Some stats →
         ∃ i hist, symbols w !! i = Some s ∧ history env (n + i) s = Returns hist
                 ∧ df_empty hist = false ∧ stats = iloc_last_to_dict hist)
    ∧ (∀ i s hist,
         symbols w !! i = Some s → history env (n + i) s = Returns hist →
         df_empty hist = true →
         no_data_fetched s ∈ emitted (fetch_asset_data env) w)
    ∧ (∀ i s e,
         symbols w !! i = Some s → history env (n + i) s = Fails e →
         fetch_error s e ∈ emitted (fetch_asset_data env) w)
    ∧ (∀ i s hist,
         symbols w !! i = Some s → history env (n + i) s = Returns hist →
         df_empty hist = false →
         (∀ j, (i < j)%nat → symbols w !! j = Some s →
               no_data (history env (n + j) s) = true) →
         Dict.get s fetched = Some (iloc_last_to_dict hist)).
Proof.
  intros n Hord. pose proof (fetch_asset_data_spec env w Hord) as Hrun. fold n in Hrun.
  assert (Hlog : emitted (fetch_asset_data env) w =
                 LogRecord INFO "Fetching asset data..." :: fetch_log env n (symbols w)).
  { apply emitted_app. by rewrite Hrun. }
  eexists _, _. split; [exact Hrun|]. split; [reflexivity|]. split_and!.
  - intros s Hno. by rewrite fetched_of_get_no_data.
  - intros s stats [Hget|Hget]%fetched_of_get_Some; [discriminate Hget | done].
  - intros i s hist Hi Hhist Hempty. rewrite Hlog. apply elem_of_cons. right.
    apply (fetch_log_elem_of _ _ _ _ i s Hi). rewrite Hhist. simpl. rewrite Hempty.
    by apply list_elem_of_singleton.
  - intros i s e Hi Hfails. rewrite Hlog. apply elem_of_cons. right.
    apply (fetch_log_elem_of _ _ _ _ i s Hi). rewrite Hfails.
    by apply list_elem_of_singleton.
  - intros i s hist Hi Hhist Hne Hlater. by apply (fetched_of_get_last _ _ _ _ _ _ i).
Qed.

Lemma scenario_4_ordinary n s : ordinary (history scenario_4 n s) = true.
Proof. simpl. by repeat case_match. Qed.

(** Scenario 4 of the specification: the result contains only AAPL, and
    the error for GOOGL is logged. *)
Lemma C3_scenario_4 :
  let w := init ["AAPL"; "TSLA"; "GOOGL"] in
  ∃ fetched w',
    fetch_asset_data scenario_4 w = (Ok 0%nat, w')
    ∧ heap w' = [fetched]
    ∧ Dict.get "GOOGL" fetched = None
    ∧ Dict.get "TSLA" fetched = None
    ∧ Dict.get "AAPL" fetched = Some (iloc_last_to_dict (daily 150 153))
    ∧ fetch_error "GOOGL" (Exception "ConnectionError" "timed out")
        ∈ emitted (fetch_asset_data scenario_4) w
    ∧ no_data_fetched "TSLA" ∈ emitted (fetch_asset_data scenario_4) w.
Proof.
  intros w.
  destruct (C3_fetch_failure_isolated scenario_4 w
              (λ i s _, scenario_4_ordinary (0 + i) s))
    as (fetched & w' & Hrun & Hheap & Habsent & _ & Hwarning & Herror & Hlast).
  exists fetched, w'. split_and!; [exact Hrun | exact Hheap | | | | |].
  - apply Habsent. by intros i _.
  - apply Habsent. by intros i _.
  - apply (Hlast 0%nat "AAPL" (daily 150 153)); [done | done | done |].
    intros [|[|[|j]]] Hj; try lia; discriminate.
  - by apply (Herror 2%nat "GOOGL").
  - by apply (Hwarning 1%nat "TSLA" no_rows).
Defined.

(** ** Driver loop *)

(** Once the loop has been left, more fuel changes nothing: no further
    iteration runs. *)
Lemma while_true_mono body : ∀ fuel fuel' w result,
  (fuel ≤ fuel')%nat →
  while_true fuel body w = Some result → while_true fuel' body w = Some result.
Proof.
  induction fuel as [|fuel IH]; intros fuel' w result Hle Hrun; [discriminate Hrun|].
  destruct fuel' as [|fuel']; [lia|]. simpl in *.
  destruct (body w) as [[[]|e] w']; [|done]. apply (IH fuel'); [lia | done].
Qed.

Lemma track_assets_left env w fuel e w1 :
  while_true fuel (tick env)
    (add_logs [LogRecord INFO "Starting asset tracking..."] w) = Some (e, w1) →
  ∀ fuel', (fuel ≤ fuel')%nat →
    track_assets env fuel' w =
      Some (match track_assets_clauses e with
            | Some handler => handler w1
            | None => (Raise e, w1)
            end).
Proof.
  intros Hrun fuel' Hle. unfold track_assets. cbn [logging].
  change (add_log ?r ?w) with (add_logs [r] w).
  rewrite (while_true_mono _ _ _ _ _ Hle Hrun). by destruct (track_assets_clauses e).
Qed.

(** C7.  When the driver loop is left by a [KeyboardInterrupt],
    [track_assets] writes "Tracking stopped by user." as its last record and
    returns normally; no further tick runs, and the process exits with
    status 0. *)
Theorem C7_interrupt_stops_cleanly env w fuel w1 :
  while_true fuel (tick env)
    (add_logs [LogRecord INFO "Starting asset tracking..."] w)
    = Some (KeyboardInterrupt, w1) →
  ∀ fuel', (fuel ≤ fuel')%nat →
    track_assets env fuel' w =
      Some (Ok tt, add_logs [LogRecord INFO "Tracking stopped by user."] w1)
    ∧ process_exit env fuel' w = Some 0.
Proof.
  intros Hrun fuel' Hle. pose proof (track_assets_left _ _ _ _ _ Hrun _ Hle) as Htrack.
  split; [exact Htrack|]. unfold process_exit. by rewrite Htrack.
Qed.

(** With the script's symbols and the provider of scenario 4, the second
    sleep is interrupted: two ticks run, then the tracker stops cleanly. *)
Lemma C7_interrupted_second_sleep :
  ∃ w1,
    track_assets scenario_4 2 (init ["AAPL"; "TSLA"; "GOOGL"]) =
      Some (Ok tt, add_logs [LogRecord INFO "Tracking stopped by user."] w1)
    ∧ process_exit scenario_4 2 (init ["AAPL"; "TSLA"; "GOOGL"]) = Some 0
    ∧ sleeps w1 = [60; 60].
Proof.
  set (w := init ["AAPL"; "TSLA"; "GOOGL"]).
  let r := eval vm_compute in
      (while_true 2 (tick scenario_4)
         (add_logs [LogRecord INFO "Starting asset tracking..."] w)) in
  assert (Hrun : while_true 2 (tick scenario_4)
                   (add_logs [LogRecord INFO "Starting asset tracking..."] w) = r)
    by (vm_compute; reflexivity).
  destruct (C7_interrupt_stops_cleanly scenario_4 w 2 _ Hrun 2 (le_n 2))
    as [Htrack Hexit].
  eexists. split; [exact Htrack|]. split; [exact Hexit|]. reflexivity.
Defined.

(** C8 as stated fails: a [RuntimeError] raised in the first sleep escapes
    the tick; [track_assets] logs it and returns, and the exit status of the
    script is 0, not a nonzero code. *)
Lemma C8_exit_status_is_zero :
  fst (tick failing_sleep
         (add_logs [LogRecord INFO "Starting asset tracking..."]
            (init ["AAPL"; "TSLA"; "GOOGL"])))
    = Raise (Exception "RuntimeError" "handler failed")
  ∧ fst <$> main failing_sleep 1 = Some 0
  ∧ (last ∘ log ∘ snd) <$> main failing_sleep 1 =
      Some (Some (LogRecord ERROR "An unexpected error occurred: handler failed")).
Proof. vm_compute. by repeat split. Qed.

(** C8, amended.  When the driver loop is left by an exception that derives
    from [Exception], [track_assets] logs it at level ERROR as "An unexpected
    error occurred: ..." and returns normally: the loop has terminated, no
    further tick runs, and the process exits with status 0. *)
Theorem C8_exception_stops_loop env w fuel cls text w1 :
  while_true fuel (tick env)
    (add_logs [LogRecord INFO "Starting asset tracking..."] w)
    = Some (Exception cls text, w1) →
  ∀ fuel', (fuel ≤ fuel')%nat →
    track_assets env fuel' w =
      Some (Ok tt,
            add_logs [LogRecord ERROR ("An unexpected error occurred: " +:+ text)] w1)
    ∧ process_exit env fuel' w = Some 0.
Proof.
  intros Hrun fuel' Hle. pose proof (track_assets_left _ _ _ _ _ Hrun _ Hle) as Htrack.
  split; [exact Htrack|]. unfold process_exit. by rewrite Htrack.
Qed.

(** With the failing sleep the loop is left in its first tick, and three
    units of fuel run no second one. *)
Lemma C8_witness :
  ∃ w1,
    track_assets failing_sleep 3 (init ["AAPL"; "TSLA"; "GOOGL"]) =
      Some (Ok tt,
            add_logs [LogRecord ERROR
                        ("An unexpected error occurred: " +:+ "handler failed")]
              w1)
    ∧ process_exit failing_sleep 3 (init ["AAPL"; "TSLA"; "GOOGL"]) = Some 0
    ∧ sleeps w1 = [60].
Proof.
  set (w := init ["AAPL"; "TSLA"; "GOOGL"]).
  let r := eval vm_compute in
      (while_true 1 (tick failing_sleep)
         (add_logs [LogRecord INFO "Starting asset tracking..."] w)) in
  assert (Hrun : while_true 1 (tick failing_sleep)
                   (add_logs [LogRecord INFO "Starting asset tracking..."] w) = r)
    by (vm_compute; reflexivity).
  destruct (C8_exception_stops_loop failing_sleep w 1 _ _ _ Hrun 3 ltac:(lia))
    as [Htrack Hexit].
  eexists. split; [exact Htrack|]. split; [exact Hexit|]. reflexivity.
Defined.

(** *** Ticks against a provider that only fails with [Exception]s *)

(** Such a tick never fails before its sleep: it makes one request per
    symbol, allocates the fetched mapping (and a summary unless nothing was
    fetched), and ends as its sleep ends. *)
Lemma tick_spec env w :
  (∀ n s, ordinary (history env n s) = true) →
  ∃ objects records,
    tick env w =
      (match sleep env (length (sleeps w)) with
       | None => Ok tt
       | Some e => Raise e
       end,
       World (symbols w) (heap w ++ objects) (log w ++ records)
         (requests w ++ symbols w) (sleeps w ++ [60])).
Proof.
  intros Hord. unfold tick.
  rewrite (bind_ok _ _ _ _ _ (fetch_asset_data_spec env w (λ i s _, Hord _ s))).
  set (fetched := fetched_of env _ _ _). set (w1 := World _ _ _ _ _).
  assert (Hdata : heap w1 !! length (heap w) = Some fetched)
    by by apply list_lookup_middle.
  pose proof (calculate_performance_spec _ _ _ Hdata) as Hcalc.
  destruct (Dict.nonempty fetched);
    rewrite (bind_ok _ _ _ _ _ Hcalc), bind_logging; unfold time_sleep; subst w1;
    unfold add_sleep, add_logs; cbn [symbols heap log requests sleeps];
    rewrite <- ?app_assoc; destruct (sleep env (length (sleeps w))); by eexists _, _.
Qed.

(** If the first [k] sleeps return and the next one raises [e], the loop is
    left by [e] in its [k+1]-th iteration. *)
Lemma while_true_sleep_raises env e :
  (∀ n s, ordinary (history env n s) = true) →
  ∀ k w,
    (∀ j, (j < k)%nat → sleep env (length (sleeps w) + j) = None) →
    sleep env (length (sleeps w) + k) = Some e →
    ∃ w1, while_true (S k) (tick env) w = Some (e, w1)
        ∧ length (sleeps w1) = (length (sleeps w) + S k)%nat.
Proof.
  intros Hord. induction k as [|k IH]; intros w Hbefore Hraise.
  - destruct (tick_spec env w Hord) as (objects & records & Htick).
    rewrite Nat.add_0_r in Hraise. rewrite Hraise in Htick.
    eexists. simpl. rewrite Htick. split; [done|].
    cbn [sleeps]. rewrite length_app. simpl. lia.
  - destruct (tick_spec env w Hord) as (objects & records & Htick).
    pose proof (Hbefore 0%nat ltac:(lia)) as Hfirst. rewrite Nat.add_0_r in Hfirst.
    rewrite Hfirst in Htick.
    set (w' := World _ _ _ _ _) in Htick.
    assert (Hlen : length (sleeps w') = S (length (sleeps w))).
    { subst w'. cbn [sleeps]. rewrite length_app. simpl. lia. }
    destruct (IH w') as (w1 & Hrun & Hsleeps).
    + intros j Hj. rewrite Hlen.
      replace (S (length (sleeps w)) + j)%nat with (length (sleeps w) + S j)%nat by lia.
      apply Hbefore. lia.
    + rewrite Hlen.
      by replace (S (length (sleeps w)) + k)%nat with (length (sleeps w) + S k)%nat by lia.
    + exists w1. split; [|lia].
      change (while_true (S (S k)) (tick env) w)
        with (match tick env w with
              | (Ok _, w'') => while_true (S k) (tick env) w''
              | (Raise e', w'') => Some (e', w'')
              end).
      by rewrite Htick.
Qed.

(** An interrupt during any sleep stops the tracker cleanly, whatever the
    provider returned or raised as [Exception] before. *)
Lemma interrupted_sleep_stops_cleanly env w k :
  (∀ n s, ordinary (history env n s) = true) →
  (∀ j, (j < k)%nat → sleep env (length (sleeps w) + j) = None) →
  sleep env (length (sleeps w) + k) = Some KeyboardInterrupt →
  ∃ w1, ∀ fuel, (S k ≤ fuel)%nat →
    track_assets env fuel w =
      Some (Ok tt, add_logs [LogRecord INFO "Tracking stopped by user."] w1)
    ∧ process_exit env fuel w = Some 0.
Proof.
  intros Hord Hbefore Hraise.
  destruct (while_true_sleep_raises env _ Hord k
              (add_logs [LogRecord INFO "Starting asset tracking..."] w) Hbefore Hraise)
    as (w1 & Hrun & _).
  exists w1. intros fuel Hfuel.
  pose proof (track_assets_left _ _ _ _ _ Hrun _ Hfuel) as Htrack.
  split; [exact Htrack|]. unfold process_exit. by rewrite Htrack.
Qed.

(** The script is [track_assets] on a fresh tracker of its three symbols. *)
Lemma main_exit_status env fuel :
  fst <$> main env fuel = process_exit env fuel (init ["AAPL"; "TSLA"; "GOOGL"]).
Proof.
  unfold main, process_exit.
  by destruct (track_assets env fuel (init ["AAPL"; "TSLA"; "GOOGL"])) as [[o w]|].
Qed.

(** * Further properties of the code *)

(** ** The loops, by their bodies *)

Lemma fetch_asset_data_unfold env :
  fetch_asset_data env =
    (data <- new_dict ;;
     logging INFO "Fetching asset data..." ;;
     syms <- self_symbols ;;
     for_each syms (fetch_one env data) ;;
     ret data).
Proof. reflexivity. Qed.

Lemma display_performance_unfold r :
  display_performance r =
    (summary <- load r ;;
     if negb (Dict.nonempty summary) then
       logging INFO "No performance data to display."
     else
       logging INFO "Displaying performance summary:" ;;
       for_each (Dict.items summary) display_one).
Proof. reflexivity. Qed.

Lemma for_each_app {A} (l1 l2 : list A) (body : A → M unit) w :
  for_each (l1 ++ l2) body w = (for_each l1 body ;; for_each l2 body) w.
Proof.
  revert w. induction l1 as [|x l1 IH]; intros w; [done|].
  simpl. unfold bind. destruct (body x w) as [[[]|e] w']; [|done].
  rewrite IH. reflexivity.
Qed.

(** ** Reporter *)

Lemma display_one_entry e w :
  display_one (entry_of e) w = (Ok tt, add_logs (block_of e) w).
Proof.
  destruct e as [symbol o c change].
  unfold display_one, entry_of, block_of, bind, lift, logging, add_log, add_logs.
  simpl. by rewrite <- !app_assoc.
Qed.

Lemma display_loop entries w :
  for_each (entry_of <$> entries) display_one w =
    (Ok tt, add_logs (concat (block_of <$> entries)) w).
Proof.
  revert w. induction entries as [|e entries IH]; intros w; simpl.
  - unfold ret. by rewrite add_logs_nil.
  - rewrite (bind_ok _ _ _ _ _ (display_one_entry e w)), IH.
    by rewrite add_logs_add_logs.
Qed.

Lemma display_entries_spec r w entries :
  entries ≠ [] →
  heap w !! r = Some (entry_of <$> entries) →
  display_performance r w =
    (Ok tt, add_logs (displaying :: concat (block_of <$> entries)) w).
Proof.
  intros Hne Hr. rewrite display_performance_unfold, (bind_load _ _ _ _ Hr).
  destruct entries as [|e entries]; [done|].
  change (negb (Dict.nonempty (entry_of <$> e :: entries))) with false. cbv iota.
  rewrite bind_logging. unfold Dict.items. rewrite display_loop.
  by rewrite add_logs_add_logs.
Qed.

(** X1.  On a non-empty summary whose entries hold three floats,
    [display_performance] returns normally and writes the header followed, for
    each entry in the order of the dict, by the five records of its block:
    the symbol, the open, close and change with two decimals, and the
    separator of forty dashes. *)
Theorem X1_display_blocks r w entries :
  entries ≠ [] →
  heap w !! r = Some (entry_of <$> entries) →
  display_performance r w =
    (Ok tt, add_logs (displaying :: concat (block_of <$> entries)) w).
Proof. apply display_entries_spec. Qed.

(** The report of scenario 1, as written to the log. *)
Lemma X1_report_of_scenario_1 :
  display_performance 0%nat summary_1
  = (Ok tt,
     add_logs
       [LogRecord INFO "Displaying performance summary:";
        LogRecord INFO "Symbol: AAPL";
        LogRecord INFO "  Open Price: 150.00";
        LogRecord INFO "  Close Price: 153.00";
        LogRecord INFO "  Change (%): 2.00";
        LogRecord INFO "----------------------------------------"]
       summary_1).
Proof.
  refine (eq_trans (X1_display_blocks 0%nat summary_1 [aapl_entry] _ eq_refl) _).
  - discriminate.
  - vm_compute. reflexivity.
Defined.

(** X2.  [display_performance] does not guard its lookups: an entry without
    'Open Price' raises [KeyError] after its "Symbol:" record has been
    written.  The entries before it are displayed in full, the entries after it
    are not displayed at all. *)
Theorem X2_display_missing_field r w good symbol performance rest :
  heap w !! r = Some ((entry_of <$> good) ++ (symbol, performance) :: rest) →
  Dict.get "Open Price" performance = None →
  display_performance r w =
    (Raise (Exception "KeyError" "'Open Price'"),
     add_logs
       (displaying :: concat (block_of <$> good)
          ++ [LogRecord INFO ("Symbol: " +:+ symbol)]) w).
Proof.
  intros Hr Hmissing. rewrite display_performance_unfold, (bind_load _ _ _ _ Hr).
  assert (Hnonempty : Dict.nonempty ((entry_of <$> good) ++ (symbol, performance) :: rest)
                      = true) by by destruct good.
  rewrite Hnonempty. change (negb true) with false. cbv iota.
  rewrite bind_logging. unfold Dict.items. rewrite for_each_app.
  rewrite (bind_ok _ _ _ _ _ (display_loop good _)). simpl for_each.
  unfold display_one at 1, bind, lift, logging, record_item. rewrite Hmissing.
  unfold add_log, add_logs. cbn [symbols heap log requests sleeps].
  by rewrite <- !app_assoc.
Qed.

(** AAPL is displayed, TSLA raises, GOOGL is never reached. *)
Lemma X2_witness :
  display_performance 0%nat broken_summary
  = (Raise (Exception "KeyError" "'Open Price'"),
     add_logs
       [LogRecord INFO "Displaying performance summary:";
        LogRecord INFO "Symbol: AAPL";
        LogRecord INFO "  Open Price: 150.00";
        LogRecord INFO "  Close Price: 153.00";
        LogRecord INFO "  Change (%): 2.00";
        LogRecord INFO "----------------------------------------";
        LogRecord INFO "Symbol: TSLA"]
       broken_summary).
Proof.
  refine (eq_trans
    (X2_display_missing_field 0%nat broken_summary [aapl_entry]
       "TSLA" [("Close Price", pyfloat 200)] [entry_of googl_entry]
       eq_refl eq_refl) _).
  vm_compute. reflexivity.
Defined.

(** ** Analyzer *)

Lemma summary_step_skipped fetched : ∀ summary,
  Forall (λ item, analyse (snd item) = Skipped) fetched →
  foldl summary_step summary fetched = summary.
Proof.
  induction fetched as [|item fetched IH]; intros summary Hall; [done|].
  apply Forall_cons in Hall as [Hitem Hall]. simpl.
  unfold summary_step at 2. rewrite Hitem. by apply IH.
Qed.

Lemma analysis_log_skipped fetched :
  Forall (λ item, analyse (snd item) = Skipped) fetched →
  analysis_log fetched = invalid_data <$> Dict.keys fetched.
Proof.
  unfold analysis_log, Dict.keys. induction 1 as [|item fetched Hitem Hall IH]; [done|].
  rewrite !fmap_cons. simpl concat. unfold analysis_record at 1. rewrite Hitem.
  simpl. by f_equal.
Qed.

(** X3.  When the fetched mapping is not empty but every record is skipped
    by the guard (an 'Open' or 'Close' that is missing, [None] or zero),
    [calculate_performance] writes one warning per symbol, in the order of the
    mapping, and then does call the Reporter, on the empty summary: the last
    record is "No performance data to display.". *)
Theorem X3_all_skipped data w fetched :
  heap w !! data = Some fetched →
  fetched ≠ [] →
  Forall (λ item, truthy (record_get (snd item) "Open") = false
                  ∨ truthy (record_get (snd item) "Close") = false) fetched →
  calculate_performance data w =
    (Ok tt,
     World (symbols w) (heap w ++ [[]])
       (log w ++ [LogRecord INFO "Calculating asset performance..."]
          ++ (invalid_data <$> Dict.keys fetched)
          ++ [LogRecord INFO "No performance data to display."])
       (requests w) (sleeps w)).
Proof.
  intros Hdata Hne Hall.
  assert (Hskipped : Forall (λ item, analyse (snd item) = Skipped) fetched).
  { eapply Forall_impl; [exact Hall|]. intros item. apply analyse_Skipped. }
  rewrite (calculate_performance_spec _ _ _ Hdata).
  destruct fetched as [|item fetched]; [done|]. simpl Dict.nonempty. cbv iota.
  assert (Hsummary : summary_of (item :: fetched) = []).
  { unfold summary_of. by rewrite summary_step_skipped. }
  by rewrite Hsummary, analysis_log_skipped.
Qed.

(** Scenario 2 of the specification, in full. *)
Lemma X3_scenario_2 :
  calculate_performance 0%nat scenario_2 =
    (Ok tt,
     World ["TSLA"]
       [[("TSLA", [("Open", pyfloat 0); ("Close", pyfloat 200)])]; []]
       [LogRecord INFO "Calculating asset performance...";
        LogRecord WARNING "Invalid data for TSLA. Open or Close price is missing.";
        LogRecord INFO "No performance data to display."]
       [] []).
Proof.
  refine (eq_trans (X3_all_skipped 0%nat scenario_2 _ eq_refl _ _) _).
  - discriminate.
  - repeat constructor.
  - reflexivity.
Defined.

Lemma analyse_has_prices stats :
  has_prices stats = match analyse stats with Computed _ => true | _ => false end.
Proof.
  unfold has_prices, analyse. cbv zeta.
  destruct (record_get stats "Open") as [|o|so], (record_get stats "Close") as [|c|sc];
    simpl; rewrite ?andb_false_r; try done;
    try (by destruct (negb _)); try (by destruct (negb _ && negb _)).
Qed.

Lemma summary_step_keys_order fetched : ∀ summary,
  NoDup (Dict.keys summary ++ Dict.keys fetched) →
  Dict.keys (foldl summary_step summary fetched) =
    Dict.keys summary ++ (fst <$> List.filter (λ item, has_prices (snd item)) fetched).
Proof.
  induction fetched as [|[k stats] fetched IH]; intros summary Hnd; simpl.
  - by rewrite app_nil_r.
  - unfold Dict.keys in Hnd. rewrite fmap_cons in Hnd. simpl in Hnd.
    apply NoDup_app in Hnd as (Hs & Hdisjoint & [Hk Hf]%NoDup_cons).
    assert (Hfresh : k ∉ Dict.keys summary).
    { intros Hin. apply (Hdisjoint k Hin), elem_of_cons. by left. }
    rewrite analyse_has_prices. unfold summary_step at 2. simpl.
    destruct (analyse stats) as [p| |e].
    + rewrite IH.
      * rewrite dict_keys_set, decide_False by done. by rewrite <- app_assoc.
      * rewrite dict_keys_set, decide_False by done. rewrite <- app_assoc. simpl.
        apply NoDup_app. split_and!; [done | | by apply NoDup_cons].
        intros x Hx. by apply Hdisjoint.
    + apply IH, NoDup_app. split_and!; [done | | done].
      intros x Hx Hin. apply (Hdisjoint x Hx), elem_of_cons. by right.
    + apply IH, NoDup_app. split_and!; [done | | done].
      intros x Hx Hin. apply (Hdisjoint x Hx), elem_of_cons. by right.
Qed.

(** X4.  The performance summary lists the symbols in the order of the
    fetched mapping: its keys are the symbols of the records with two nonzero
    float prices, in the order in which the mapping holds them. *)
Theorem X4_summary_order data w fetched summary :
  heap w !! data = Some fetched →
  Dict.wf fetched →
  performance_summary_of data w = Some summary →
  Dict.keys summary = fst <$> List.filter (λ item, has_prices (snd item)) fetched.
Proof.
  intros Hdata Hwf. rewrite (performance_summary_of_spec _ _ _ Hdata).
  destruct (Dict.nonempty fetched); [|discriminate]. intros [= <-].
  unfold summary_of. by rewrite summary_step_keys_order.
Qed.

(** The record with text prices is left out, AAPL is kept. *)
Lemma X4_witness :
  ∃ summary,
    performance_summary_of 0%nat text_prices = Some summary
    ∧ Dict.keys summary = ["AAPL"].
Proof.
  let r := eval vm_compute in (performance_summary_of 0%nat text_prices) in
  match r with
  | Some ?summary =>
      exists summary;
      assert (Hsummary : performance_summary_of 0%nat text_prices = Some summary)
        by (vm_compute; reflexivity)
  end.
  split; [exact Hsummary|].
  apply (X4_summary_order 0%nat text_prices _ _ eq_refl); [|exact Hsummary].
  apply NoDup_cons. split; [|apply NoDup_singleton].
  by intros [=]%list_elem_of_singleton.
Defined.

Lemma entry_of_to_displayed item :
  is_performance (snd item) → entry_of (to_displayed item) = item.
Proof.
  destruct item as [symbol performance]. simpl. by intros (o & c & change & ->).
Qed.

Lemma entries_of_summary summary :
  Forall (λ item, is_performance (snd item)) summary →
  summary = entry_of <$> (to_displayed <$> summary).
Proof.
  induction 1 as [|item summary Hitem Hall IH]; [done|].
  rewrite !fmap_cons, entry_of_to_displayed by done. by f_equal.
Qed.

Lemma display_output_entries entries :
  entries ≠ [] →
  display_output (entry_of <$> entries) =
    (Ok tt, displaying :: concat (block_of <$> entries)).
Proof.
  intros Hne.
  exact (f_equal (λ r : outcome unit * world, (fst r, log (snd r)))
           (display_entries_spec 0%nat (World [] [entry_of <$> entries] [] [] [])
              entries Hne eq_refl)).
Qed.

(** X5.  Every result is reported.  For a record with two nonzero float
    prices, the log that [calculate_performance] writes contains the block of
    the symbol as five consecutive records: the symbol, the open and close as
    fetched and the change [(close - open) / open * 100], each with two
    decimals, and the separator. *)
Theorem X5_result_is_reported data w fetched symbol stats o c :
  heap w !! data = Some fetched →
  Dict.wf fetched →
  Dict.get symbol fetched = Some stats →
  Dict.get "Open" stats = Some (PyFloat o) →
  Dict.get "Close" stats = Some (PyFloat c) →
  Float.is_zero o = false →
  Float.is_zero c = false →
  ∃ before after,
    emitted (calculate_performance data) w =
      before ++ block_of (Displayed symbol o c (change_percent o c)) ++ after.
Proof.
  intros Hdata Hwf Hstats Ho Hc Hoz Hcz.
  assert (Han : analyse stats = Computed (PerformanceResult o c)).
  { apply analyse_Computed. by exists o, c. }
  assert (Hget : Dict.get symbol (summary_of fetched) = Some (PerformanceResult o c)).
  { by rewrite (summary_of_get _ _ Hwf), Hstats, Han. }
  apply dict_get_elem_of in Hget.
  rewrite (emitted_calculate_performance _ _ _ Hdata).
  destruct fetched as [|item fetched]; [discriminate Hstats|].
  simpl Dict.nonempty. cbv iota.
  set (summary := summary_of (item :: fetched)) in *.
  pose proof (entries_of_summary summary (summary_of_is_performance _)) as Hentries.
  set (entries := to_displayed <$> summary) in *.
  assert (Hin : Displayed symbol o c (change_percent o c) ∈ entries).
  { subst entries. apply list_elem_of_fmap. by exists (symbol, PerformanceResult o c). }
  apply list_elem_of_split in Hin as (l1 & l2 & Hsplit).
  rewrite Hentries, display_output_entries by (rewrite Hsplit; by destruct l1).
  cbn [snd]. rewrite Hsplit, fmap_app, fmap_cons, concat_app. simpl concat.
  eexists (_ :: analysis_log _ ++ displaying :: concat (block_of <$> l1)), _.
  simpl. f_equal. rewrite <- !app_assoc. simpl. reflexivity.
Qed.

(** The block of AAPL in scenario 1. *)
Lemma X5_scenario_1 :
  ∃ before after,
    emitted (calculate_performance 0%nat) scenario_1 =
      before
      ++ [LogRecord INFO "Symbol: AAPL";
          LogRecord INFO "  Open Price: 150.00";
          LogRecord INFO "  Close Price: 153.00";
          LogRecord INFO "  Change (%): 2.00";
          LogRecord INFO "----------------------------------------"]
      ++ after.
Proof.
  destruct (X5_result_is_reported 0%nat scenario_1 _ "AAPL" _
              (Float.of_Z 150) (Float.of_Z 153)
              eq_refl (NoDup_singleton _) eq_refl eq_refl eq_refl eq_refl eq_refl)
    as (before & after & Hemitted).
  exists before, after. rewrite Hemitted. do 2 f_equal.
Defined.

(** X6.  A record whose prices pass the guard but are not both floats (a
    non-empty string, for instance) fails in the subtraction; the handler of
    the loop logs the [TypeError] for that symbol, no result is produced for
    it, and the call still returns normally. *)
Theorem X6_type_error_is_logged data w fetched symbol stats :
  heap w !! data = Some fetched →
  Dict.wf fetched →
  Dict.get symbol fetched = Some stats →
  truthy (record_get stats "Open") && truthy (record_get stats "Close") = true →
  (∃ text, record_get stats "Open" = PyStr text)
  ∨ (∃ text, record_get stats "Close" = PyStr text) →
  fst (calculate_performance data w) = Ok tt
  ∧ calculation_error symbol
      (unsupported "-" (record_get stats "Close") (record_get stats "Open"))
    ∈ emitted (calculate_performance data) w
  ∧ result_for data w symbol = None.
Proof.
  intros Hdata Hwf Hstats Hguard Htext.
  assert (Han : analyse stats =
                Failed (unsupported "-" (record_get stats "Close")
                          (record_get stats "Open"))).
  { unfold analyse. cbv zeta. rewrite Hguard.
    destruct Htext as [[text ->]|[text ->]]; [done|].
    by destruct (record_get stats "Open"). }
  split_and!.
  - rewrite (calculate_performance_spec _ _ _ Hdata). by destruct (Dict.nonempty fetched).
  - rewrite (emitted_calculate_performance _ _ _ Hdata).
    destruct fetched as [|item fetched]; [done|]. simpl Dict.nonempty. cbv iota.
    rewrite !elem_of_app. right; left. apply elem_of_analysis_log.
    exists (symbol, stats). split; [by apply dict_get_elem_of|].
    unfold analysis_record. simpl. rewrite Han. by apply list_elem_of_singleton.
  - by rewrite (result_for_spec _ _ _ _ Hdata Hwf), Hstats, Han.
Qed.

(** Text prices for TSLA: the error is logged, AAPL still gets its result. *)
Lemma X6_witness :
  fst (calculate_performance 0%nat text_prices) = Ok tt
  ∧ LogRecord ERROR
      ("Error calculating performance for TSLA: "
         +:+ "unsupported operand type(s) for -: 'str' and 'str'")
    ∈ emitted (calculate_performance 0%nat) text_prices
  ∧ result_for 0%nat text_prices "TSLA" = None.
Proof.
  apply (X6_type_error_is_logged 0%nat text_prices _ "TSLA"
           [("Open", PyStr "n/a"); ("Close", PyStr "n/a")] eq_refl).
  - apply NoDup_cons. split; [|apply NoDup_singleton].
    by intros [=]%list_elem_of_singleton.
  - reflexivity.
  - reflexivity.
  - left. by eexists.
Defined.

Lemma change_percent_nan o c :
  o = S754_nan ∨ c = S754_nan → change_percent o c = S754_nan.
Proof.
  unfold change_percent, Float.mul, Float.div, Float.sub.
  intros [-> | ->]; [by destruct c | by destruct o].
Qed.

(** X7.  The guard does not filter NaN: a NaN is truthy, so a record whose
    open or close is NaN (and whose other price is not zero) gets a result,
    and the change of that result is NaN. *)
Theorem X7_nan_passes_the_guard data w fetched symbol stats o c :
  heap w !! data = Some fetched →
  Dict.wf fetched →
  Dict.get symbol fetched = Some stats →
  Dict.get "Open" stats = Some (PyFloat o) →
  Dict.get "Close" stats = Some (PyFloat c) →
  Float.is_zero o = false →
  Float.is_zero c = false →
  o = S754_nan ∨ c = S754_nan →
  result_for data w symbol =
    Some [("Open Price", PyFloat o); ("Close Price", PyFloat c);
          ("Change (%)", PyFloat S754_nan)].
Proof.
  intros Hdata Hwf Hstats Ho Hc Hoz Hcz Hnan.
  assert (Han : analyse stats = Computed (PerformanceResult o c)).
  { apply analyse_Computed. by exists o, c. }
  rewrite (result_for_spec _ _ _ _ Hdata Hwf), Hstats, Han.
  unfold PerformanceResult. fold (change_percent o c).
  by rewrite change_percent_nan.
Qed.

(** An opening price that is NaN: the result is kept, with a NaN change. *)
Lemma X7_witness :
  result_for 0%nat nan_open "AAPL" =
    Some [("Open Price", PyFloat S754_nan); ("Close Price", pyfloat 153);
          ("Change (%)", PyFloat S754_nan)].
Proof.
  apply (X7_nan_passes_the_guard 0%nat nan_open _ "AAPL" _ S754_nan (Float.of_Z 153)
           eq_refl (NoDup_singleton _) eq_refl eq_refl eq_refl eq_refl eq_refl).
  by left.
Defined.

(** ** Fetcher *)

(** One iteration of the loop of [fetch_asset_data], whatever the provider
    answers: the request is recorded; a non-empty table is stored, an empty
    one and an [Exception] are logged, any other exception goes on. *)
Lemma fetch_one_spec env data s w h d :
  heap w = h ++ [d] → length h = data →
  fetch_one env data s w =
    (match history env (length (requests w)) s with
     | Returns _ => Ok tt
     | Fails e => if is_Exception e then Ok tt else Raise e
     end,
     World (symbols w)
       (h ++ [fetch_step (history env (length (requests w)) s) s d])
       (log w ++ if ordinary (history env (length (requests w)) s)
                 then fetch_record (history env (length (requests w)) s) s else [])
       (requests w ++ [s]) (sleeps w)).
Proof.
  intros Hheap Hlen. unfold fetch_one, try_except, bind, yf_history.
  destruct (history env (length (requests w)) s) as [hist|e]; simpl.
  - destruct (df_empty hist); cbv beta iota delta [negb].
    + unfold logging, add_log, add_request. simpl. by rewrite Hheap.
    + unfold setitem, add_request. cbn [heap]. rewrite Hheap.
      rewrite (list_lookup_middle h [] d data) by done.
      rewrite insert_app_r_alt by lia. rewrite Hlen, Nat.sub_diag.
      unfold set_heap. simpl. by rewrite app_nil_r.
  - unfold except_Exception. destruct (is_Exception e).
    + unfold logging, add_log, add_request. simpl. by rewrite Hheap.
    + unfold add_request. by rewrite Hheap, app_nil_r.
Qed.

Lemma fetch_loop_ordinary env data : ∀ syms w h d,
  heap w = h ++ [d] → length h = data →
  (∀ i s, syms !! i = Some s →
          ordinary (history env (length (requests w) + i) s) = true) →
  for_each syms (fetch_one env data) w =
    (Ok tt,
     World (symbols w) (h ++ [fetched_of env (length (requests w)) syms d])
       (log w ++ fetch_log env (length (requests w)) syms)
       (requests w ++ syms) (sleeps w)).
Proof.
  induction syms as [|s syms IH]; intros w h d Hheap Hlen Hord; simpl.
  - unfold ret. rewrite !app_nil_r, <- Hheap. by destruct w.
  - pose proof (Hord 0%nat s eq_refl) as Hs. rewrite Nat.add_0_r in Hs.
    pose proof (fetch_one_spec env data s w h d Hheap Hlen) as Hstep.
    rewrite Hs in Hstep.
    assert (Hok : match history env (length (requests w)) s with
                  | Returns _ => Ok tt
                  | Fails e => if is_Exception e then Ok tt else Raise e
                  end = Ok tt).
    { destruct (history env (length (requests w)) s) as [hist|e]; [done|].
      simpl in Hs. by rewrite Hs. }
    rewrite Hok in Hstep. rewrite (bind_ok _ _ _ _ _ Hstep).
    rewrite (IH _ h (fetch_step (history env (length (requests w)) s) s d));
      [|done|done|].
    + cbn [symbols heap log requests sleeps]. rewrite length_app. simpl length.
      rewrite Nat.add_1_r. by rewrite <- !app_assoc.
    + intros i s' Hi. cbn [requests]. rewrite length_app. simpl length.
      replace (length (requests w) + 1 + i)%nat
        with (length (requests w) + S i)%nat by lia.
      by apply Hord.
Qed.

Lemma fetch_step_keys r s d :
  Dict.keys (fetch_step r s d) = Dict.keys d
  ∨ Dict.keys (fetch_step r s d) = Dict.keys d ++ [s].
Proof.
  unfold fetch_step. destruct r as [hist|e]; [|by left].
  destruct (df_empty hist); [by left|]. rewrite dict_keys_set.
  case_decide; [by left | by right].
Qed.

(** The loop of [fetch_asset_data] under any provider. *)
Lemma fetch_loop_any env data : ∀ syms w h d,
  heap w = h ++ [d] → length h = data →
  ∃ o d' records asked extra,
    for_each syms (fetch_one env data) w =
      (o, World (symbols w) (h ++ [d']) (log w ++ records)
            (requests w ++ asked) (sleeps w))
    ∧ asked `prefix_of` syms
    ∧ (o = Ok tt → asked = syms)
    ∧ Dict.keys d' = Dict.keys d ++ extra
    ∧ sublist extra syms
    ∧ (∀ e, o = Raise e →
            ∃ n s, history env n s = Fails e ∧ is_Exception e = false).
Proof.
  induction syms as [|s syms IH]; intros w h d Hheap Hlen.
  - exists (Ok tt), d, [], [], []. simpl. unfold ret.
    rewrite !app_nil_r, <- Hheap. split_and!; try done. by destruct w.
  - pose proof (fetch_one_spec env data s w h d Hheap Hlen) as Hstep.
    pose proof (eq_refl (history env (length (requests w)) s)) as Hanswer.
    set (r := history env (length (requests w)) s) in Hstep, Hanswer at 1.
    set (w1 := World _ _ _ _ _) in Hstep.
    destruct (IH w1 h (fetch_step r s d) eq_refl Hlen)
      as (o & d' & records & asked & extra & Hrest & Hprefix & Hall & Hkeys & Hsub
          & Hraised).
    assert (Hextra : ∃ extra', Dict.keys d' = Dict.keys d ++ extra'
                               ∧ sublist extra' (s :: syms)).
    { destruct (fetch_step_keys r s d) as [Hsame|Hnew].
      - exists extra. rewrite Hkeys, Hsame. split; [done | by apply sublist_cons].
      - exists (s :: extra). rewrite Hkeys, Hnew, <- app_assoc.
        split; [done | by apply sublist_skip]. }
    destruct Hextra as (extra' & Hkeys' & Hsub').
    simpl for_each. unfold bind. rewrite Hstep.
    destruct r as [hist|e] eqn:Hr; [|destruct (is_Exception e) eqn:He].
    + exists o, d', (fetch_record (Returns hist) s ++ records), (s :: asked), extra'.
      rewrite Hrest. subst w1. cbn [symbols heap log requests sleeps ordinary].
      rewrite <- !app_assoc. split_and!; try done.
      * by apply prefix_cons.
      * intros Hok. by rewrite Hall.
    + exists o, d', (fetch_record (Fails e) s ++ records), (s :: asked), extra'.
      rewrite Hrest. subst w1. cbn [symbols heap log requests sleeps ordinary].
      rewrite He, <- !app_assoc. split_and!; try done.
      * by apply prefix_cons.
      * intros Hok. by rewrite Hall.
    + exists (Raise e), d, [], [s], []. subst w1.
      cbn [symbols heap log requests sleeps ordinary fetch_step]. rewrite He.
      split_and!; try done.
      * apply prefix_cons, prefix_nil.
      * by rewrite app_nil_r.
      * apply sublist_nil_l.
      * intros e' [= <-]. by exists (length (requests w)), s.
Qed.

(** [fetch_asset_data] under any provider, from its loop. *)
Lemma fetch_asset_data_any env w :
  ∃ o fetched records asked,
    fetch_asset_data env w =
      (o, World (symbols w) (heap w ++ [fetched])
            (log w ++ LogRecord INFO "Fetching asset data..." :: records)
            (requests w ++ asked) (sleeps w))
    ∧ asked `prefix_of` symbols w
    ∧ (∀ r, o = Ok r → r = length (heap w) ∧ asked = symbols w)
    ∧ sublist (Dict.keys fetched) (symbols w)
    ∧ (∀ e, o = Raise e →
            ∃ n s, history env n s = Fails e ∧ is_Exception e = false).
Proof.
  rewrite fetch_asset_data_unfold, bind_new_dict, bind_logging, bind_self_symbols.
  set (w0 := add_logs _ _). change (symbols w0) with (symbols w).
  destruct (fetch_loop_any env (length (heap w)) (symbols w) w0 (heap w) Dict.empty
              eq_refl eq_refl)
    as (o & d' & records & asked & extra & Hloop & Hprefix & Hall & Hkeys & Hsub
        & Hraised).
  unfold bind. rewrite Hloop. subst w0. cbn [symbols heap log requests sleeps add_logs
    set_heap] in *. simpl in Hkeys. subst extra.
  destruct o as [[]|e].
  - exists (Ok (length (heap w))), d', records, asked. unfold ret.
    rewrite <- app_assoc. split_and!; try done. intros r [= <-]. by rewrite Hall.
  - exists (Raise e), d', records, asked. rewrite <- app_assoc. split_and!; try done.
    intros e' [= <-]. by apply Hraised.
Qed.

(** X8.  The mapping that [fetch_asset_data] returns lists its symbols in the
    order of [self.symbols]: its keys are a subsequence of the list. *)
Theorem X8_fetch_order env w r w' :
  fetch_asset_data env w = (Ok r, w') →
  ∃ fetched, heap w' !! r = Some fetched ∧ sublist (Dict.keys fetched) (symbols w).
Proof.
  intros Hfetch.
  destruct (fetch_asset_data_any env w)
    as (o & fetched & records & asked & Hrun & _ & Hok & Hsub & _).
  rewrite Hfetch in Hrun. injection Hrun as <- ->.
  destruct (Hok r eq_refl) as [-> _]. exists fetched. split; [|done].
  simpl. by apply list_lookup_middle.
Qed.

(** In scenario 4 the batch returns a mapping whose keys follow the list. *)
Lemma X8_witness :
  ∃ fetched,
    heap (snd (fetch_asset_data scenario_4 (init ["AAPL"; "TSLA"; "GOOGL"]))) !! 0%nat
      = Some fetched
    ∧ sublist (Dict.keys fetched) ["AAPL"; "TSLA"; "GOOGL"].
Proof.
  set (w := init ["AAPL"; "TSLA"; "GOOGL"]).
  let r := eval vm_compute in (fetch_asset_data scenario_4 w) in
  assert (Hrun : fetch_asset_data scenario_4 w = r) by (vm_compute; reflexivity).
  destruct (X8_fetch_order scenario_4 w _ _ Hrun) as (fetched & Hheap & Hsub).
  exists fetched. rewrite Hrun. by split.
Defined.

(** X9.  An exception of the provider that does not derive from [Exception]
    (a [KeyboardInterrupt], a [SystemExit]) is not caught by the handler of
    the loop: [fetch_asset_data] raises it at once, nothing is logged for it,
    and the symbols after the one being requested are never requested. *)
Theorem X9_fetch_aborted env w before symbol after e :
  let n := length (requests w) in
  symbols w = before ++ symbol :: after →
  (∀ i s, before !! i = Some s → ordinary (history env (n + i) s) = true) →
  history env (n + length before) symbol = Fails e →
  is_Exception e = false →
  fetch_asset_data env w =
    (Raise e,
     World (symbols w) (heap w ++ [fetched_of env n before Dict.empty])
       (log w ++ LogRecord INFO "Fetching asset data..." :: fetch_log env n before)
       (requests w ++ before ++ [symbol]) (sleeps w)).
Proof.
  intros n Hsyms Hord Hfails He.
  rewrite fetch_asset_data_unfold, bind_new_dict, bind_logging, bind_self_symbols.
  set (w0 := add_logs _ _). change (symbols w0) with (symbols w). rewrite Hsyms.
  unfold bind at 1. rewrite for_each_app.
  rewrite (bind_ok _ _ _ _ _
             (fetch_loop_ordinary env (length (heap w)) before w0 (heap w) Dict.empty
                eq_refl eq_refl Hord)).
  cbn [for_each]. set (w1 := World _ _ _ _ _) at 1. unfold bind.
  rewrite (fetch_one_spec env (length (heap w)) symbol w1 (heap w) _ eq_refl eq_refl).
  subst w1 w0. cbn [symbols heap log requests sleeps add_logs set_heap].
  rewrite length_app. fold n. rewrite Hfails. cbn [ordinary fetch_step]. rewrite He.
  by rewrite Hsyms, app_nil_r, <- !app_assoc.
Qed.

(** The provider is interrupted while it answers for TSLA: AAPL has been
    fetched, GOOGL is never requested. *)
Lemma X9_witness :
  fetch_asset_data interrupted_request (init ["AAPL"; "TSLA"; "GOOGL"]) =
    (Raise KeyboardInterrupt,
     World ["AAPL"; "TSLA"; "GOOGL"]
       [[("AAPL", iloc_last_to_dict (daily 150 153))]]
       [LogRecord INFO "Fetching asset data..."]
       ["AAPL"; "TSLA"] []).
Proof.
  refine (eq_trans
    (X9_fetch_aborted interrupted_request (init ["AAPL"; "TSLA"; "GOOGL"])
       ["AAPL"] "TSLA" ["GOOGL"] KeyboardInterrupt eq_refl _ eq_refl eq_refl) _).
  - intros [|i] s Hi; [by injection Hi as <- | discriminate Hi].
  - reflexivity.
Defined.

(** X10.  Frame and request discipline of [fetch_asset_data], under any
    provider: it keeps [self.symbols], every existing object and the sleeps,
    allocates exactly one object, only appends to the log, and asks the
    provider at most once per position of [self.symbols], in order, with no
    retry; when it returns, it has asked exactly once per position. *)
Theorem X10_fetch_frame env w :
  ∃ fetched records asked,
    snd (fetch_asset_data env w) =
      World (symbols w) (heap w ++ [fetched])
        (log w ++ LogRecord INFO "Fetching asset data..." :: records)
        (requests w ++ asked) (sleeps w)
    ∧ asked `prefix_of` symbols w
    ∧ (∀ r, fst (fetch_asset_data env w) = Ok r → asked = symbols w).
Proof.
  destruct (fetch_asset_data_any env w)
    as (o & fetched & records & asked & Hrun & Hprefix & Hok & _ & _).
  exists fetched, records, asked. rewrite Hrun. split_and!; [done | done |].
  intros r Hr. by destruct (Hok r Hr).
Qed.

(** ** Driver loop *)

(** A tick under any environment. *)
Lemma tick_any env w :
  ∃ o objects records asked slept,
    tick env w =
      (o, World (symbols w) (heap w ++ objects) (log w ++ records)
            (requests w ++ asked) (sleeps w ++ slept))
    ∧ (∀ e, o = Raise e → raised_by env e).
Proof.
  destruct (fetch_asset_data_any env w)
    as (o & fetched & records & asked & Hrun & _ & Hok & _ & Hraised).
  unfold tick. unfold bind at 1. rewrite Hrun. destruct o as [r|e].
  - destruct (Hok r eq_refl) as [-> _]. set (w1 := World _ _ _ _ _).
    assert (Hdata : heap w1 !! length (heap w) = Some fetched)
      by by apply list_lookup_middle.
    pose proof (calculate_performance_spec _ _ _ Hdata) as Hcalc.
    destruct (Dict.nonempty fetched);
      rewrite (bind_ok _ _ _ _ _ Hcalc), bind_logging; unfold time_sleep; subst w1;
      unfold add_sleep, add_logs; cbn [symbols heap log requests sleeps];
      rewrite <- ?app_assoc;
      destruct (sleep env (length (sleeps w))) as [e|] eqn:Hsleep;
      eexists _, _, _, _, _; (split; [reflexivity|]); intros e' [= <-];
      right; by eexists.
  - exists (Raise e), [fetched], (LogRecord INFO "Fetching asset data..." :: records),
      asked, []. rewrite app_nil_r. split; [done|].
    intros e' [= <-]. left. by apply Hraised.
Qed.

(** X11.  The Analyzer and the Reporter never make a tick fail: whatever the
    provider answers, an exception that leaves a tick was raised by the
    provider (and does not derive from [Exception]) or by [time.sleep]. *)
Theorem X11_tick_fails_only_from_outside env w e :
  fst (tick env w) = Raise e → raised_by env e.
Proof.
  destruct (tick_any env w) as (o & objects & records & asked & slept & Htick & Hraised).
  rewrite Htick. simpl. intros ->. by apply Hraised.
Qed.

(** The first sleep of scenario 4 returns; in the second tick the interrupt
    of the second sleep is what leaves the tick. *)
Lemma X11_witness : raised_by scenario_4 KeyboardInterrupt.
Proof.
  apply (X11_tick_fails_only_from_outside scenario_4
           (World ["AAPL"] [] [] [] [60])).
  vm_compute. reflexivity.
Defined.

Lemma while_true_any env : ∀ fuel w e w1,
  while_true fuel (tick env) w = Some (e, w1) →
  symbols w1 = symbols w
  ∧ heap w `prefix_of` heap w1
  ∧ log w `prefix_of` log w1
  ∧ requests w `prefix_of` requests w1
  ∧ sleeps w `prefix_of` sleeps w1.
Proof.
  induction fuel as [|fuel IH]; intros w e w1 Hrun; [discriminate Hrun|].
  simpl in Hrun.
  destruct (tick_any env w) as (o & objects & records & asked & slept & Htick & _).
  rewrite Htick in Hrun. destruct o as [[]|e'].
  - apply IH in Hrun as (Hsym & Hheap & Hlog & Hreq & Hsleep).
    cbn [symbols heap log requests sleeps] in *. split_and!; [done|..].
    + etrans; [|exact Hheap]. by apply prefix_app_r.
    + etrans; [|exact Hlog]. by apply prefix_app_r.
    + etrans; [|exact Hreq]. by apply prefix_app_r.
    + etrans; [|exact Hsleep]. by apply prefix_app_r.
  - injection Hrun as <- <-. cbn [symbols heap log requests sleeps].
    split_and!; [done|..]; by apply prefix_app_r.
Qed.

(** X12.  Frame of the whole driver: whenever [track_assets] returns, under
    any environment and after any number of ticks, [self.symbols] is
    unchanged, no existing object has been modified or removed, and the log,
    the requests and the sleeps have only been appended to. *)
Theorem X12_track_assets_frame env fuel w o w' :
  track_assets env fuel w = Some (o, w') →
  symbols w' = symbols w
  ∧ heap w `prefix_of` heap w'
  ∧ log w `prefix_of` log w'
  ∧ requests w `prefix_of` requests w'
  ∧ sleeps w `prefix_of` sleeps w'.
Proof.
  unfold track_assets. cbn [logging].
  destruct (while_true fuel (tick env) _) as [[e w1]|] eqn:Hrun; [|discriminate].
  apply while_true_any in Hrun as (Hsym & Hheap & Hlog & Hreq & Hsleep).
  cbn [symbols heap log requests sleeps add_log] in *.
  assert (Hlog' : log w `prefix_of` log w1).
  { etrans; [|exact Hlog]. by apply prefix_app_r. }
  destruct e as [|code|cls text]; simpl; intros [= <- <-];
    cbn [symbols heap log requests sleeps add_log]; split_and!; try done.
  - etrans; [exact Hlog'|]. by apply prefix_app_r.
  - etrans; [exact Hlog'|]. by apply prefix_app_r.
Qed.

(** After two ticks against scenario 4 the tracker still tracks its three
    symbols. *)
Lemma X12_witness :
  ∃ o w',
    track_assets scenario_4 2 (init ["AAPL"; "TSLA"; "GOOGL"]) = Some (o, w')
    ∧ symbols w' = ["AAPL"; "TSLA"; "GOOGL"].
Proof.
  let r := eval vm_compute in
      (track_assets scenario_4 2 (init ["AAPL"; "TSLA"; "GOOGL"])) in
  match r with
  | Some (?o, ?w') =>
      exists o, w';
      assert (Hrun : track_assets scenario_4 2 (init ["AAPL"; "TSLA"; "GOOGL"])
                     = Some (o, w'))
        by (vm_compute; reflexivity)
  end.
  split; [exact Hrun|].
  exact (proj1 (X12_track_assets_frame scenario_4 2 _ _ _ Hrun)).
Defined.

(** *** Against a provider that only fails with [Exception]s *)

Lemma tick_ordinary_last env w :
  (∀ n s, ordinary (history env n s) = true) →
  last (log (snd (tick env w))) = Some waiting.
Proof.
  intros Hord. unfold tick.
  rewrite (bind_ok _ _ _ _ _ (fetch_asset_data_spec env w (λ i s _, Hord _ s))).
  set (fetched := fetched_of env _ _ _). set (w1 := World _ _ _ _ _).
  assert (Hdata : heap w1 !! length (heap w) = Some fetched)
    by by apply list_lookup_middle.
  pose proof (calculate_performance_spec _ _ _ Hdata) as Hcalc.
  destruct (Dict.nonempty fetched);
    rewrite (bind_ok _ _ _ _ _ Hcalc), bind_logging; unfold time_sleep;
    destruct (sleep env _); cbn [snd log add_sleep add_logs]; apply last_snoc.
Qed.

Lemma while_true_left_ordinary env :
  (∀ n s, ordinary (history env n s) = true) →
  ∀ fuel w e w1,
    while_true fuel (tick env) w = Some (e, w1) →
    ∃ k, (k < fuel)%nat
       ∧ (∀ j, (j < k)%nat → sleep env (length (sleeps w) + j) = None)
       ∧ sleep env (length (sleeps w) + k) = Some e
       ∧ symbols w1 = symbols w
       ∧ requests w1 = requests w ++ concat (replicate (S k) (symbols w))
       ∧ sleeps w1 = sleeps w ++ replicate (S k) 60
       ∧ last (log w1) = Some waiting.
Proof.
  intros Hord. induction fuel as [|fuel IH]; intros w e w1 Hrun; [discriminate Hrun|].
  simpl in Hrun. pose proof (tick_ordinary_last env w Hord) as Hlast.
  destruct (tick_spec env w Hord) as (objects & records & Htick).
  rewrite Htick in Hrun, Hlast.
  destruct (sleep env (length (sleeps w))) as [e'|] eqn:Hsleep.
  - injection Hrun as <- <-. exists 0%nat. rewrite Nat.add_0_r.
    cbn [symbols requests sleeps concat replicate]. rewrite app_nil_r.
    split_and!; try done; [lia | intros j Hj; lia].
  - apply IH in Hrun as (k & Hk & Hbefore & Hraise & Hsym & Hreq & Hsleeps & Hlog).
    cbn [symbols requests sleeps] in *. rewrite length_app in Hbefore, Hraise.
    simpl in Hbefore, Hraise. exists (S k). split_and!.
    + lia.
    + intros [|j] Hj; [by rewrite Nat.add_0_r|].
      replace (length (sleeps w) + S j)%nat with (length (sleeps w) + 1 + j)%nat by lia.
      apply Hbefore. lia.
    + by replace (length (sleeps w) + S k)%nat
        with (length (sleeps w) + 1 + k)%nat by lia.
    + done.
    + rewrite Hreq, <- app_assoc. by rewrite (replicate_S (S k)).
    + rewrite Hsleeps, <- app_assoc. by rewrite (replicate_S (S k)).
    + done.
Qed.

(** X13.  The tracker never stops by itself: against a provider that only
    returns tables or raises [Exception]s and with sleeps that all return,
    [track_assets] is still running after any number of ticks, and so is the
    script. *)
Theorem X13_runs_until_interrupted env :
  (∀ n s, ordinary (history env n s) = true) →
  (∀ n, sleep env n = None) →
  ∀ fuel, (∀ w, track_assets env fuel w = None) ∧ main env fuel = None.
Proof.
  intros Hord Hsleep fuel.
  assert (Hloop : ∀ w, while_true fuel (tick env) w = None).
  { intros w. destruct (while_true fuel (tick env) w) as [[e w1]|] eqn:Hrun; [|done].
    apply (while_true_left_ordinary env Hord) in Hrun as (k & _ & _ & Hraise & _).
    by rewrite Hsleep in Hraise. }
  assert (Htrack : ∀ w, track_assets env fuel w = None).
  { intros w. unfold track_assets. cbn [logging]. by rewrite Hloop. }
  split; [exact Htrack|]. unfold main. by rewrite Htrack.
Qed.

(** A provider that always has data and sleeps that always return: the
    script is still running after a thousand ticks. *)
Lemma X13_witness : main always_data 1000 = None.
Proof.
  exact (proj2 (X13_runs_until_interrupted always_data
                  (λ _ _, eq_refl) (λ _, eq_refl) 1000)).
Defined.

(** X14.  Against a provider that only returns tables or raises
    [Exception]s, the loop is left only by an exception raised in a sleep.
    Every tick up to then, the last included, has requested each symbol of
    [self.symbols] once, in order, and has slept 60 seconds; the last record
    of the log is "Waiting for the next update cycle...". *)
Theorem X14_ticks_request_and_sleep env fuel w e w1 :
  (∀ n s, ordinary (history env n s) = true) →
  while_true fuel (tick env) w = Some (e, w1) →
  ∃ k, (k < fuel)%nat
     ∧ (∀ j, (j < k)%nat → sleep env (length (sleeps w) + j) = None)
     ∧ sleep env (length (sleeps w) + k) = Some e
     ∧ requests w1 = requests w ++ concat (replicate (S k) (symbols w))
     ∧ sleeps w1 = sleeps w ++ replicate (S k) 60
     ∧ last (log w1) = Some waiting.
Proof.
  intros Hord Hrun.
  destruct (while_true_left_ordinary env Hord _ _ _ _ Hrun)
    as (k & Hk & Hbefore & Hraise & _ & Hreq & Hsleeps & Hlast).
  by exists k.
Qed.

(** Scenario 4: the loop is left in its second tick, after six requests and
    two sleeps. *)
Lemma X14_witness :
  ∃ w1,
    while_true 5 (tick scenario_4) (init ["AAPL"; "TSLA"; "GOOGL"])
      = Some (KeyboardInterrupt, w1)
    ∧ requests w1 = ["AAPL"; "TSLA"; "GOOGL"; "AAPL"; "TSLA"; "GOOGL"]
    ∧ sleeps w1 = [60; 60]
    ∧ last (log w1) = Some waiting.
Proof.
  set (w := init ["AAPL"; "TSLA"; "GOOGL"]).
  let r := eval vm_compute in (while_true 5 (tick scenario_4) w) in
  match r with
  | Some (_, ?w1) =>
      exists w1;
      assert (Hrun : while_true 5 (tick scenario_4) w = Some (KeyboardInterrupt, w1))
        by (vm_compute; reflexivity)
  end.
  split; [exact Hrun|].
  destruct (X14_ticks_request_and_sleep scenario_4 5 w _ _ scenario_4_ordinary Hrun)
    as (k & _ & _ & _ & _ & _ & Hlast).
  split; [reflexivity|]. split; [reflexivity|]. exact Hlast.
Defined.

(** X15.  A [SystemExit] raised in a sleep is not handled by [track_assets]:
    neither clause matches, so it leaves [track_assets] as it is, and nothing
    is logged for it (the log ends with the record of the tick that was
    waiting). *)
Theorem X15_system_exit_propagates env w k code :
  (∀ n s, ordinary (history env n s) = true) →
  (∀ j, (j < k)%nat → sleep env (length (sleeps w) + j) = None) →
  sleep env (length (sleeps w) + k) = Some (SystemExit code) →
  ∃ w1,
    (∀ fuel, (S k ≤ fuel)%nat →
             track_assets env fuel w = Some (Raise (SystemExit code), w1))
    ∧ last (log w1) = Some waiting.
Proof.
  intros Hord Hbefore Hraise.
  destruct (while_true_sleep_raises env _ Hord k
              (add_logs [LogRecord INFO "Starting asset tracking..."] w) Hbefore Hraise)
    as (w1 & Hrun & _).
  exists w1. split.
  - intros fuel Hfuel. exact (track_assets_left _ _ _ _ _ Hrun _ Hfuel).
  - by destruct (while_true_left_ordinary env Hord _ _ _ _ Hrun) as (? & ? & ? & ? & ? & ? & ? & ?).
Qed.

(** A [SystemExit] in the first sleep leaves the script after one tick. *)
Lemma X15_witness :
  ∃ w1,
    (∀ fuel, (1 ≤ fuel)%nat →
             track_assets exiting_sleep fuel (init ["AAPL"; "TSLA"; "GOOGL"])
             = Some (Raise (SystemExit 3), w1))
    ∧ last (log w1) = Some waiting.
Proof.
  apply (X15_system_exit_propagates exiting_sleep (init ["AAPL"; "TSLA"; "GOOGL"]) 0 3).
  - intros n s. apply scenario_4_ordinary.
  - intros j Hj. lia.
  - reflexivity.
Defined.
